(** * windlass: remote connectors and the retry decorator

    A shallow embedding of [windlass/remotes.py], and of the loader of
    [windlass/products.py].  Python exceptions are
    values of an outcome type, state is passed explicitly, and the remote
    services (the Docker daemon, the ECR and S3 clients, the HTTP server
    behind [requests]) are records of arbitrary transition functions over a
    hidden world [W]: every theorem holds whatever those services answer.
    Each call made to a service is appended to an event log, so that
    statements such as "no PUT is issued" are statements about that log. *)

From Stdlib Require Import ZArith NArith Ascii String List Bool.
From stdpp Require Import base tactics strings list gmap pretty.

Open Scope string_scope.
Set Warnings "-register-all".

(** ** Python values *)

Module Py.

(** Exception classes form a tree rooted at [BaseException]; [Derived n b]
    is [class n(b)].  Only single inheritance occurs in the module. *)
Inductive exc_class : Type :=
| BaseException
| Derived (name : string) (base : exc_class).

Fixpoint exc_class_eqb (c d : exc_class) : bool :=
  match c, d with
  | BaseException, BaseException => true
  | Derived n b, Derived n' b' => String.eqb n n' && exc_class_eqb b b'
  | _, _ => false
  end.

(** [issubclass c d]: [d] is [c] or one of its ancestors. *)
Fixpoint issubclass (c d : exc_class) : bool :=
  exc_class_eqb c d ||
  match c with
  | BaseException => false
  | Derived _ b => issubclass b d
  end.

Definition Exception : exc_class := Derived "Exception" BaseException.
Definition KeyboardInterrupt : exc_class := Derived "KeyboardInterrupt" BaseException.
Definition ValueError : exc_class := Derived "ValueError" Exception.
Definition IndexError : exc_class := Derived "IndexError" Exception.

(** An exception instance: its class, its message ([args]) and the
    exception it is chained to ([__cause__] / [__context__]), if any. *)
Inductive exn : Type :=
| Exn (cls : exc_class) (msg : string) (context : option exn).

Definition exn_class (e : exn) : exc_class := let 'Exn c _ _ := e in c.
Definition exn_msg (e : exn) : string := let 'Exn _ m _ := e in m.
Definition exn_context (e : exn) : option exn := let 'Exn _ _ x := e in x.

Definition isinstance (e : exn) (c : exc_class) : bool :=
  issubclass (exn_class e) c.

(** Implicit chaining: an exception raised while [inflight] is being
    handled gets [inflight] at the end of its context chain. *)
Fixpoint chain_context (e inflight : exn) : exn :=
  match e with
  | Exn c m None => Exn c m (Some inflight)
  | Exn c m (Some e') => Exn c m (Some (chain_context e' inflight))
  end.

(** [wraps e inner]: [inner] is reachable from [e] through the chain of
    causes, which is how a Python exception wraps another one. *)
Inductive wraps : exn -> exn -> Prop :=
| wraps_direct c m inner : wraps (Exn c m (Some inner)) inner
| wraps_deeper c m e inner : wraps e inner -> wraps (Exn c m (Some e)) inner.

(** What a call produces: a value or a raised exception. *)
Inductive outcome (A : Type) : Type :=
| Returned (a : A)
| Raised (e : exn).
Arguments Returned {A} a.
Arguments Raised {A} e.

(** Computations over a state [St]. *)
Definition M (St A : Type) : Type := St -> outcome A * St.

Definition ret {St A} (a : A) : M St A := fun s => (Returned a, s).
Definition raise {St A} (e : exn) : M St A := fun s => (Raised e, s).
Definition bind {St A B} (m : M St A) (k : A -> M St B) : M St B :=
  fun s =>
    match m s with
    | (Returned a, s') => k a s'
    | (Raised e, s') => (Raised e, s')
    end.

(** [try: body finally: fin].  The body's outcome stands when [fin]
    returns; an exception of [fin] replaces it. *)
Definition try_finally {St A} (body : M St A) (fin : M St unit) : M St A :=
  fun s =>
    match body s with
    | (Returned a, s1) =>
        match fin s1 with
        | (Returned _, s2) => (Returned a, s2)
        | (Raised e2, s2) => (Raised e2, s2)
        end
    | (Raised e1, s1) =>
        match fin s1 with
        | (Returned _, s2) => (Raised e1, s2)
        | (Raised e2, s2) => (Raised (chain_context e2 e1), s2)
        end
    end.

(** [try: body except cls: handler] (the handler ignores the exception). *)
Definition try_except {St A} (body : M St A) (cls : exc_class)
    (handler : M St A) : M St A :=
  fun s =>
    match body s with
    | (Returned a, s1) => (Returned a, s1)
    | (Raised e, s1) =>
        if isinstance e cls then handler s1 else (Raised e, s1)
    end.

(** [str.split(sep)] for a one-character separator. *)
Fixpoint split (sep : ascii) (s : string) : list string :=
  match s with
  | EmptyString => [EmptyString]
  | String c rest =>
      if Ascii.eqb c sep then EmptyString :: split sep rest
      else
        match split sep rest with
        | h :: t => String c h :: t
        | [] => [String c EmptyString]
        end
  end.

(** [str.count(sep)] for a one-character separator. *)
Fixpoint count (sep : ascii) (s : string) : nat :=
  match s with
  | EmptyString => 0
  | String c rest => (if Ascii.eqb c sep then 1 else 0) + count sep rest
  end.

(** The message of the [ValueError] raised when [n] values are unpacked
    into two names. *)
Definition unpack2_error (n : nat) : string :=
  if Nat.ltb n 2 then
    "not enough values to unpack (expected 2, got " +:+ pretty n +:+ ")"
  else "too many values to unpack (expected 2)".

(** [a, b = parts]: unpacking into exactly two names. *)
Definition unpack2 {St} (parts : list string) : M St (string * string) :=
  match parts with
  | [a; b] => ret (a, b)
  | _ => raise (Exn ValueError (unpack2_error (length parts)) None)
  end.

Definition startswith_sep (s : string) : bool :=
  match s with
  | String c _ => Ascii.eqb c "/"
  | EmptyString => false
  end.

Fixpoint endswith_sep (s : string) : bool :=
  match s with
  | EmptyString => false
  | String c EmptyString => Ascii.eqb c "/"
  | String _ rest => endswith_sep rest
  end.

(** [os.path.join(a, b)] (posixpath). *)
Definition os_path_join (a b : string) : string :=
  if startswith_sep b then b
  else if String.eqb a "" || endswith_sep a then a +:+ b
  else a +:+ "/" +:+ b.

(** A dict with string keys and values, as the list of its items in
    insertion order; [d[k] = v] keeps the position of a key already
    present. *)
Definition dict : Type := list (string * string).

Fixpoint dict_set (k v : string) (d : dict) : dict :=
  match d with
  | [] => [(k, v)]
  | (k', v') :: d' =>
      if String.eqb k k' then (k, v) :: d' else (k', v') :: dict_set k v d'
  end.

Definition dict_items (d : dict) : list (string * string) := d.

(** The dict a caller builds by assigning the pairs one after the other. *)
Definition dict_of_assignments (kvs : list (string * string)) : dict :=
  fold_left (fun d kv => dict_set (fst kv) (snd kv) d) kvs [].

(** [sep.join(parts)]. *)
Definition join (sep : string) (parts : list string) : string :=
  String.concat sep parts.

Definition TypeError : exc_class := Derived "TypeError" Exception.

(** [str.split(sep, 1)]: at most one split, at the first separator. *)
Fixpoint split_max1 (sep : ascii) (s : string) : list string :=
  match s with
  | EmptyString => [EmptyString]
  | String c rest =>
      if Ascii.eqb c sep then [EmptyString; rest]
      else
        match split_max1 sep rest with
        | h :: t => String c h :: t
        | [] => [String c EmptyString]
        end
  end.

(** The outcome of a pure expression, inside a computation. *)
Definition of_outcome {St A} (o : outcome A) : M St A := fun s => (o, s).

(** [l[0]] on a list of any type. *)
Definition first_of {St A} (l : list A) : M St A :=
  match l with
  | x :: _ => ret x
  | [] => raise (Exn IndexError "list index out of range" None)
  end.

End Py.

Import Py.

Declare Scope py_scope.
Delimit Scope py_scope with py.
Notation "x <- m ;; k" := (bind m (fun x => k))
  (at level 100, m at next level, right associativity) : py_scope.
Notation "m ;;; k" := (bind m (fun _ => k))
  (at level 100, right associativity) : py_scope.
Open Scope py_scope.

(** ** windlass.api *)

Module api.

(** Modelled from the spec: [windlass.api.RetryableFailure] is not among
    the sources; the spec calls it the base "transient remote failure"
    kind, an ordinary exception that the retry decorator catches. *)
Definition RetryableFailure : exc_class := Derived "RetryableFailure" Exception.

(** Modelled from the spec: [windlass.api.NoValidRemoteError], the fatal
    configuration error of an unconfigured channel. *)
Definition NoValidRemoteError : exc_class := Derived "NoValidRemoteError" Exception.

End api.

(** ** remote_retry *)

(** A Python function object: what [%s] prints for it and what calling it
    does. *)
Record pyfunc (St Args A : Type) : Type := {
  fn_repr : string;
  fn_call : Args -> M St A
}.
Arguments fn_repr {St Args A} _.
Arguments fn_call {St Args A} _ _ _.

(** What the decorator itself does between attempts. *)
Inductive retry_event : Type :=
| LogException (msg : string)
| Sleep (seconds : N).

(** The state seen by a decorated call: the state of the wrapped function
    and the record of the decorator's own logging and sleeping. *)
Record rstate (St : Type) : Type := {
  inner : St;
  rlog : list retry_event
}.
Arguments inner {St} _.
Arguments rlog {St} _.

Module remote_retry.

Record t : Type := {
  max_retries : Z;
  retry_backoff : N;
  retry_on : list exc_class
}.

(** [remote_retry(max_retries=3, retry_backoff=None, retry_on=None)];
    [global_retry_backoff] is the module-level variable read at
    construction.  Back-off durations are non-negative seconds, the
    values [time.sleep] accepts. *)
Definition __init__ (global_retry_backoff : N) (max_retries : option Z)
    (retry_backoff : option N) (retry_on : option (list exc_class)) : t :=
  {| max_retries := default 3%Z max_retries;
     retry_backoff :=
       match retry_backoff with
       | Some b => if N.eqb b 0 then global_retry_backoff else b
       | None => global_retry_backoff
       end;
     retry_on :=
       api.RetryableFailure ::
       match retry_on with
       | Some l => l
       | None => []
       end |}.

(** The exceptions the [except Exception] clause catches and then finds in
    [retry_on]. *)
Definition retryable (self : t) (e : exn) : bool :=
  isinstance e Exception && existsb (isinstance e) (retry_on self).

Definition backoff_message {St Args A} (self : t) (func : pyfunc St Args A) : string :=
  fn_repr func +:+ ": problem occuried retrying, backing off "
    +:+ pretty (retry_backoff self) +:+ " seconds".

Definition exhausted_message {St Args A} (self : t) (func : pyfunc St Args A) : string :=
  fn_repr func +:+ ": Maximum number of retries occurred ("
    +:+ pretty (max_retries self) +:+ ")".

(** One round of logging and sleeping. *)
Definition backoff {St Args A} (self : t) (func : pyfunc St Args A) : list retry_event :=
  [LogException (backoff_message self func); Sleep (retry_backoff self)].

(** The body of [retry_f]: [n] is the number of iterations of
    [for i in range(0, self.max_retries)] still to run. *)
Fixpoint retry_loop {St Args A} (self : t) (func : pyfunc St Args A)
    (args : Args) (n : nat) (s : rstate St) : outcome A * rstate St :=
  match n with
  | O => (Raised (Exn Exception (exhausted_message self func) None), s)
  | S n' =>
      match fn_call func args (inner s) with
      | (Returned v, st) => (Returned v, {| inner := st; rlog := rlog s |})
      | (Raised e, st) =>
          if isinstance e Exception then
            if negb (existsb (isinstance e) (retry_on self)) then
              (Raised e, {| inner := st; rlog := rlog s |})
            else
              retry_loop self func args n'
                {| inner := st; rlog := rlog s ++ backoff self func |}
          else (Raised e, {| inner := st; rlog := rlog s |})
      end
  end.

(** [remote_retry.__call__(func)] returns [retry_f]. *)
Definition __call__ {St Args A} (self : t) (func : pyfunc St Args A)
    : Args -> M (rstate St) A :=
  fun args s => retry_loop self func args (Z.to_nat (max_retries self)) s.

(** The state of the wrapped function after [k] attempts from [s]. *)
Fixpoint state_after {St Args A} (func : pyfunc St Args A) (args : Args)
    (k : nat) (s : St) : St :=
  match k with
  | O => s
  | S k' => state_after func args k' (snd (fn_call func args s))
  end.

(** The attempt made from [s] raises an exception of the retryable set. *)
Definition fails_retryably {St Args A} (self : t) (func : pyfunc St Args A)
    (args : Args) (s : St) : bool :=
  match fst (fn_call func args s) with
  | Raised e => retryable self e
  | Returned _ => false
  end.

(** The failure raised by the attempt made from [s], if it raises. *)
Definition failure_at {St Args A} (func : pyfunc St Args A)
    (args : Args) (s : St) : option exn :=
  match fst (fn_call func args s) with
  | Raised e => Some e
  | Returned _ => None
  end.

Definition is_sleep (ev : retry_event) : bool :=
  match ev with
  | Sleep _ => true
  | LogException _ => false
  end.

(** How many times the decorator slept. *)
Definition sleeps (log : list retry_event) : nat :=
  length (filter (fun ev => is_sleep ev = true) log).

(** Lifting a computation of the wrapped state to the decorated state. *)
Definition lift {St A} (m : M St A) : M (rstate St) A :=
  fun s =>
    let (r, st) := m (inner s) in
    (r, {| inner := st; rlog := rlog s |}).

End remote_retry.

(** ** The remote services and the observable state *)

(** The body of an upload: the bytes a file object yields. *)
Definition stream : Type := list Byte.byte.

(** The records a streamed [docker push] yields. *)
Definition push_output : Type := list string.

(** An HTTP response as far as the connectors read it. *)
Record response : Type := { status_code : Z }.

(** [requests.Response.ok]: [raise_for_status()] does not raise, that is,
    the status is not in the 4xx or 5xx range. *)
Definition ok (r : response) : bool :=
  negb ((400 <=? status_code r)%Z && (status_code r <? 600)%Z).

(** The calls the connectors make to the outside. *)
Inductive event : Type :=
| DockerFromEnv
| DockerTag (image repository tag : string)
| DockerPush (repository tag username password : string)
| DockerRemoveImage (image : string)
| EcrDescribeRepositories
| EcrCreateRepository (repositoryName : string)
| EcrSetRepositoryPolicy (repositoryName policyText : string)
| S3UploadFileobj (data : stream) (bucket key : string)
| HttpHead (url : string)
| HttpPut (url : string) (data : stream) (username password : string).

(** What the outside answers.  [W] is whatever the daemon, the cloud and
    the HTTP server remember between calls; each answer may depend on it
    and change it, and may be an exception.

    [check_docker_stream] stands for [windlass.images.check_docker_stream],
    which is not among the sources: it reads the records of a push and may
    raise. *)
Record services (W : Type) : Type := {
  docker_from_env : W -> outcome unit * W;
  docker_api_tag : string -> string -> string -> W -> outcome unit * W;
  docker_images_push :
    string -> string -> string -> string -> W -> outcome push_output * W;
  check_docker_stream : push_output -> W -> outcome unit * W;
  docker_api_remove_image : string -> W -> outcome unit * W;
  ecr_describe_repositories : W -> outcome (list (list string)) * W;
  ecr_create_repository : string -> W -> outcome string * W;
  ecr_set_repository_policy : string -> string -> W -> outcome unit * W;
  s3_upload_fileobj : stream -> string -> string -> W -> outcome unit * W;
  requests_head : string -> W -> outcome response * W;
  requests_put :
    string -> stream -> string -> string -> W -> outcome response * W
}.
Arguments docker_from_env {W} _ _.
Arguments docker_api_tag {W} _ _ _ _ _.
Arguments docker_images_push {W} _ _ _ _ _ _.
Arguments check_docker_stream {W} _ _ _.
Arguments docker_api_remove_image {W} _ _ _.
Arguments ecr_describe_repositories {W} _ _.
Arguments ecr_create_repository {W} _ _ _.
Arguments ecr_set_repository_policy {W} _ _ _ _.
Arguments s3_upload_fileobj {W} _ _ _ _ _.
Arguments requests_head {W} _ _ _.
Arguments requests_put {W} _ _ _ _ _ _.

(** The state the connectors run in: the outside world, the log of the
    calls made to it, and the one mutable attribute of the module's
    objects, [ECRConnector.existing_repos]. *)
Record state (W : Type) : Type := {
  world : W;
  events : list event;
  existing_repos : gset string
}.
Arguments world {W} _.
Arguments events {W} _.
Arguments existing_repos {W} _.

(** A call to the outside: logged, then answered. *)
Definition call {W A} (ev : event) (f : W -> outcome A * W) : M (state W) A :=
  fun s =>
    let (r, w) := f (world s) in
    (r, {| world := w;
           events := events s ++ [ev];
           existing_repos := existing_repos s |}).

(** Reading what the outside already sent: answered, not logged. *)
Definition receive {W A} (f : W -> outcome A * W) : M (state W) A :=
  fun s =>
    let (r, w) := f (world s) in
    (r, {| world := w;
           events := events s;
           existing_repos := existing_repos s |}).

(** The calls made between two states, the later one extending the log
    of the earlier one. *)
Definition new_events {W} (s s' : state W) : list event :=
  drop (length (events s)) (events s').

(** [l[0]]. *)
Definition first_item {St} (l : list string) : M St string :=
  match l with
  | x :: _ => ret x
  | [] => raise (Exn IndexError "list index out of range" None)
  end.

(** The value of the module-level [global_retry_backoff] when the module
    is loaded. *)
Definition global_retry_backoff : N := 5.

(** ** DockerConnector *)

Module DockerConnector.

Record t : Type := {
  registry_list : list string;
  username : string;
  password : string
}.

(** [upload(self, local_name, upload_name=None, upload_tag=None)]. *)
Definition upload_args : Type := (string * option string * option string)%type.

Section body.
Context {W : Type} (svc : services W).

(** The undecorated [upload]. *)
Definition upload_body (self : t) (args : upload_args) : M (state W) string :=
  let '(local_name, upload_name, upload_tag) := args in
  call DockerFromEnv (docker_from_env svc) ;;;
  parsed <- unpack2 (split ":" local_name) ;;
  let '(local_image_name, local_image_tag) := parsed in
  let upload_name := default local_image_name upload_name in
  let upload_tag := default local_image_tag upload_tag in
  registry <- first_item (registry_list self) ;;
  let upload_path := registry +:+ "/" +:+ upload_name in
  let upload_url := upload_path +:+ ":" +:+ upload_tag in
  try_finally
    (call (DockerTag local_name upload_path upload_tag)
       (docker_api_tag svc local_name upload_path upload_tag) ;;;
     output <- call (DockerPush upload_path upload_tag (username self) (password self))
                 (docker_images_push svc upload_path upload_tag
                    (username self) (password self)) ;;
     receive (check_docker_stream svc output) ;;;
     ret upload_url)
    (call (DockerRemoveImage upload_url)
       (docker_api_remove_image svc upload_url)).

(** The function object [upload] before decoration; [addr] is the address
    Python prints in its [repr]. *)
Definition upload_func (addr : string) (self : t)
    : pyfunc (state W) upload_args string :=
  {| fn_repr := "<function DockerConnector.upload at 0x" +:+ addr +:+ ">";
     fn_call := upload_body self |}.

(** [@remote_retry()], evaluated when the class body runs. *)
Definition upload_retry : remote_retry.t :=
  remote_retry.__init__ global_retry_backoff None None None.

(** [DockerConnector.upload] as callers see it. *)
Definition upload (addr : string) (self : t) (local_name : string)
    (upload_name upload_tag : option string) : M (rstate (state W)) string :=
  remote_retry.__call__ upload_retry (upload_func addr self)
    (local_name, upload_name, upload_tag).

End body.

(** The destination alias of an upload, [registries[0]/uploadName:uploadTag]. *)
Definition upload_url (registry upload_name upload_tag : string) : string :=
  (registry +:+ "/" +:+ upload_name) +:+ ":" +:+ upload_tag.

(** Reading a log of calls from left to right: every [tag] creates an
    alias that must be the argument of a [remove_image] before the next
    [tag] and before the end of the log.  [pending] is the alias created
    and not yet removed. *)
Fixpoint aliases_removed (pending : option string) (log : list event) : bool :=
  match log with
  | [] =>
      match pending with
      | None => true
      | Some _ => false
      end
  | DockerTag _ repository tag :: log' =>
      match pending with
      | None => aliases_removed (Some (repository +:+ ":" +:+ tag)) log'
      | Some _ => false
      end
  | DockerRemoveImage image :: log' =>
      match pending with
      | None => aliases_removed None log'
      | Some alias => String.eqb image alias && aliases_removed None log'
      end
  | _ :: log' => aliases_removed pending log'
  end.

(** What [__init__] is given as [registry_list]: one registry or a list. *)
Inductive registry_arg : Type :=
| OneRegistry (r : string)
| Registries (l : list string).

Definition __init__ (registry_list : registry_arg) (username password : string)
    : t :=
  {| registry_list :=
       match registry_list with
       | OneRegistry r => [r]
       | Registries l => l
       end;
     username := username;
     password := password |}.

(** [download_docker]: [pass]. *)
Definition download_docker {St} (self : t) (image_name : string) : M St unit :=
  ret tt.

Definition is_push (ev : event) : bool :=
  match ev with
  | DockerPush _ _ _ _ => true
  | _ => false
  end.

(** How many pushes a log holds. *)
Definition pushes (log : list event) : nat :=
  length (filter (fun ev => is_push ev = true) log).

End DockerConnector.

(** ** ECRConnector *)

Module ecr_exceptions.
(** The classes of [self.ecrc.exceptions]: botocore derives them from
    [ClientError]. *)
Definition ClientError : exc_class := Derived "ClientError" Exception.
Definition RepositoryNotFoundException : exc_class :=
  Derived "RepositoryNotFoundException" ClientError.
Definition RepositoryAlreadyExistsException : exc_class :=
  Derived "RepositoryAlreadyExistsException" ClientError.
End ecr_exceptions.

Module ECRConnector.

(** The attributes set by [__init__], [existing_repos] apart (it is
    mutable and lives in the state). *)
Record t : Type := {
  path_prefixes : list string;
  new_repo_policy : option string;
  base : DockerConnector.t
}.

(** How [__init__] normalises its [path_prefixes] argument: [None], a
    single prefix or a list. *)
Inductive path_prefixes_arg : Type :=
| NoPrefixes
| OnePrefix (p : string)
| Prefixes (l : list string).

Definition init_path_prefixes (a : path_prefixes_arg) : list string :=
  match a with
  | NoPrefixes => [""]
  | OnePrefix p => [p]
  | Prefixes l => l
  end.

Section methods.
Context {W : Type} (svc : services W).

Definition set_existing_repos (r : gset string) : M (state W) unit :=
  fun s =>
    (Returned tt,
     {| world := world s; events := events s; existing_repos := r |}).

(** [_list_existing_repos]: the union of the names on every page. *)
Definition _list_existing_repos : M (state W) (gset string) :=
  pages <- call EcrDescribeRepositories (ecr_describe_repositories svc) ;;
  ret (fold_left (fun acc page => acc ∪ list_to_set page) pages ∅).

(** The one line of [__init__] that fills the catalog. *)
Definition init_existing_repos : M (state W) unit :=
  r <- _list_existing_repos ;;
  set_existing_repos r.

(** [_set_repo_policy]: a policy that is [None] or empty is not applied. *)
Definition _set_repo_policy (self : t) (repository_name : string)
    : M (state W) unit :=
  match new_repo_policy self with
  | Some policy_text =>
      if String.eqb policy_text "" then ret tt
      else call (EcrSetRepositoryPolicy repository_name policy_text)
             (ecr_set_repository_policy svc repository_name policy_text)
  | None => ret tt
  end.

(** The nested function [_create_repo], undecorated. *)
Definition _create_repo_body (self : t) (image_name : string) (_ : unit)
    : M (state W) unit :=
  try_except
    (call (EcrCreateRepository image_name)
       (ecr_create_repository svc image_name) ;;;
     ret tt)
    ecr_exceptions.RepositoryAlreadyExistsException
    (ret tt) ;;;
  _set_repo_policy self image_name.

Definition _create_repo_func (addr : string) (self : t) (image_name : string)
    : pyfunc (state W) unit unit :=
  {| fn_repr :=
       "<function ECRConnector._create_repo_if_new.<locals>._create_repo at 0x"
         +:+ addr +:+ ">";
     fn_call := _create_repo_body self image_name |}.

(** [@remote_retry(retry_on=[RepositoryNotFoundException])], evaluated at
    each call of [_create_repo_if_new]; [grb] is the value of
    [global_retry_backoff] at that time. *)
Definition _create_repo_retry (grb : N) : remote_retry.t :=
  remote_retry.__init__ grb None None
    (Some [ecr_exceptions.RepositoryNotFoundException]).

Definition add_existing_repo (image_name : string) : M (state W) unit :=
  fun s =>
    (Returned tt,
     {| world := world s;
        events := events s;
        existing_repos := {[image_name]} ∪ existing_repos s |}).

Definition _create_repo_if_new (grb : N) (addr : string) (self : t)
    (image_name : string) : M (rstate (state W)) unit :=
  fun s =>
    if decide (image_name ∈ existing_repos (inner s)) then (Returned tt, s)
    else
      (remote_retry.__call__ (_create_repo_retry grb)
         (_create_repo_func addr self image_name) tt ;;;
       remote_retry.lift (add_existing_repo image_name)) s.

(** [ECRConnector.upload]; [addr] and [addr'] are the addresses of the two
    decorated function objects. *)
Definition upload (grb : N) (addr addr' : string) (self : t)
    (local_name : string) (upload_name upload_tag : option string)
    : M (rstate (state W)) string :=
  parsed <- unpack2 (split ":" local_name) ;;
  let '(local_image_name, local_image_tag) := parsed in
  let upload_name := default local_image_name upload_name in
  prefix <- first_item (path_prefixes self) ;;
  let upload_path := prefix +:+ upload_name in
  _create_repo_if_new grb addr self upload_path ;;;
  DockerConnector.upload svc addr' (base self) local_name
    (Some upload_path) upload_tag.

(** The repository an upload pushes to, when its arguments determine one. *)
Definition destination (self : t) (local_name : string)
    (upload_name : option string) : option string :=
  match split ":" local_name, path_prefixes self with
  | [local_image_name; _], prefix :: _ =>
      Some (prefix +:+ default local_image_name upload_name)
  | _, _ => None
  end.

(** The caller's publishing loop: one upload after the other, whatever
    the outcome of each. *)
Fixpoint publish (grb : N) (addr addr' : string) (self : t)
    (requests : list DockerConnector.upload_args) (s : rstate (state W))
    : rstate (state W) :=
  match requests with
  | [] => s
  | (local_name, upload_name, upload_tag) :: rest =>
      publish grb addr addr' self rest
        (snd (upload grb addr addr' self local_name upload_name upload_tag s))
  end.

(** The answers to [create_repository] after which [_create_repo] goes on:
    a normal return, or the exception caught by its [except] clause. *)
Definition tolerated (created : outcome string) : Prop :=
  match created with
  | Returned _ => True
  | Raised e => isinstance e ecr_exceptions.RepositoryAlreadyExistsException = true
  end.

End methods.

(** One entry of [authorizationData] in the answer to
    [get_authorization_token]. *)
Record authorization : Type := {
  proxyEndpoint : string;
  authorizationToken : string
}.

Section login.
(** The token request of the client, and the two library functions the
    login goes through: [urllib.parse.urlparse(url)[1]] and
    [base64.b64decode(token).decode("utf-8")], both of which may raise.
    The token request is not among the logged calls. *)
Context {W : Type}
  (get_authorization_token : W -> outcome (list authorization) * W)
  (urlparse_netloc : string -> outcome string)
  (b64decode_utf8 : string -> outcome string).

(** [_docker_login]: registry, username and password. *)
Definition _docker_login : M (state W) (string * string * string) :=
  resp <- receive get_authorization_token ;;
  entry <- first_of resp ;;
  registry <- of_outcome (urlparse_netloc (proxyEndpoint entry)) ;;
  entry' <- first_of resp ;;
  up <- of_outcome (b64decode_utf8 (authorizationToken entry')) ;;
  parsed <- unpack2 (split_max1 ":" up) ;;
  ret (registry, fst parsed, snd parsed).

End login.

End ECRConnector.

(** ** S3Connector *)

(** [AWSCreds]: the named tuple of key id, secret key and region; the
    region is [None] when the environment does not give one. *)
Record AWSCreds : Type := {
  key_id : string;
  secret_key : string;
  region : option string
}.

Module S3Connector.

Record t : Type := {
  creds : AWSCreds;
  bucket : string;
  path_prefix : string
}.

(** [__init__(creds, bucket, path_prefix=None)]. *)
Definition __init__ (creds : AWSCreds) (bucket : string)
    (path_prefix : option string) : t :=
  {| creds := creds; bucket := bucket; path_prefix := default "" path_prefix |}.

Definition _obj_url (self : t) (upload_name : string) : string :=
  "https://" +:+ bucket self +:+ ".s3.amazonaws.com/"
    +:+ path_prefix self +:+ upload_name.

Definition upload {W} (svc : services W) (self : t) (upload_name : string)
    (data : stream) : M (state W) string :=
  let key := path_prefix self +:+ upload_name in
  call (S3UploadFileobj data (bucket self) key)
    (s3_upload_fileobj svc data (bucket self) key) ;;;
  ret (_obj_url self upload_name).

End S3Connector.

(** ** ExceptionConnector *)

Module ExceptionConnector.

(** [remote] is kept as the text [%s] prints for the owning remote. *)
Record t : Type := {
  remote : string;
  artifact_type : string
}.

(** [__getattr__]: any attribute access raises. *)
Definition __getattr__ {St A} (self : t) (name : string) : M St A :=
  raise (Exn api.NoValidRemoteError
           ("No " +:+ remote self +:+ " connector configured for "
              +:+ artifact_type self) None).

End ExceptionConnector.

(** ** HTTPBasicAuthConnector *)

Module HTTPBasicAuthConnector.

Record t : Type := {
  base_url : string;
  username : string;
  password : string
}.

(** The matrix parameters: [';'.join(['%s=%s' % (k, v) for k, v in
    properties.items()])]. *)
Definition props (properties : dict) : string :=
  join ";" (map (fun kv => fst kv +:+ "=" +:+ snd kv) (dict_items properties)).

(** The URL the PUT goes to. *)
Definition upload_url (self : t) (upload_name : string) (properties : dict)
    : string :=
  let url := os_path_join (base_url self) upload_name in
  let p := props properties in
  if String.eqb p "" then url else url +:+ ";" +:+ p.

Definition failed_message (status : Z) (url : string) : string :=
  "Failed (status: " +:+ pretty status +:+ ") to upload " +:+ url.

Definition upload {W} (svc : services W) (self : t) (upload_name : string)
    (data : stream) (properties : dict) : M (state W) string :=
  let url := upload_url self upload_name properties in
  resp <- call (HttpPut url data (username self) (password self))
            (requests_put svc url data (username self) (password self)) ;;
  if negb (status_code resp =? 201)%Z then
    raise (Exn api.RetryableFailure
             (failed_message (status_code resp) url) None)
  else ret url.

End HTTPBasicAuthConnector.

(** ** HTTPBasicAuthConnector2Phase *)

Module HTTPBasicAuthConnector2Phase.

Record t : Type := {
  super : HTTPBasicAuthConnector.t;
  temp_path : string
}.

Definition already_exists_message (check_url : string) : string :=
  "Artifact " +:+ check_url +:+ " already exists".

(** [upload]: the existence probe of the final location when [temp_path]
    is set, then the inherited upload to the staged location. *)
Definition upload {W} (svc : services W) (self : t) (upload_name : string)
    (data : stream) (properties : dict) : M (state W) string :=
  (if String.eqb (temp_path self) "" then ret tt
   else
     let check_url :=
       os_path_join (HTTPBasicAuthConnector.base_url (super self)) upload_name in
     check_resp <- call (HttpHead check_url) (requests_head svc check_url) ;;
     if ok check_resp then
       raise (Exn Exception (already_exists_message check_url) None)
     else ret tt) ;;;
  HTTPBasicAuthConnector.upload svc (super self)
    (os_path_join (temp_path self) upload_name) data properties.

End HTTPBasicAuthConnector2Phase.

(** ** AWSRemote *)

Module AWSRemote.

(** What a channel of the remote is bound to. *)
Inductive docker_channel : Type :=
| NoDocker (c : ExceptionConnector.t)
| Ecr (c : ECRConnector.t).

Inductive s3_channel : Type :=
| NoS3 (c : ExceptionConnector.t)
| S3 (c : S3Connector.t).

Record t : Type := {
  creds : AWSCreds;
  ecr : docker_channel;
  signature_connector : s3_channel;
  generic_connector : s3_channel
}.

(** [__str__]; [%s] prints a missing region as [None]. *)
Definition __str__ (creds : AWSCreds) : string :=
  "AWSRemote(region=" +:+ default "None" (region creds)
    +:+ ", key_id=" +:+ key_id creds +:+ ")".

(** The remote as [__init__] leaves it, given its credentials. *)
Definition __init__ (creds : AWSCreds) : t :=
  let unconfigured atype :=
    {| ExceptionConnector.remote := __str__ creds;
       ExceptionConnector.artifact_type := atype |} in
  {| creds := creds;
     ecr := NoDocker (unconfigured "docker");
     signature_connector := NoS3 (unconfigured "signatures");
     generic_connector := NoS3 (unconfigured "generic") |}.

Definition setup_signatures (self : t) (bucket : string) : t :=
  {| creds := creds self;
     ecr := ecr self;
     signature_connector := S3 (S3Connector.__init__ (creds self) bucket None);
     generic_connector := generic_connector self |}.

Definition setup_generic (self : t) (bucket : string) (prefix : option string) : t :=
  {| creds := creds self;
     ecr := ecr self;
     signature_connector := signature_connector self;
     generic_connector := S3 (S3Connector.__init__ (creds self) bucket prefix) |}.

(** [upload_docker]; the arguments before [self] are those of
    [ECRConnector.upload]. *)
Definition upload_docker {W} (svc : services W) (grb : N) (addr addr' : string)
    (self : t) (local_name : string) (upload_name upload_tag : option string)
    : M (rstate (state W)) string :=
  match ecr self with
  | NoDocker ec => ExceptionConnector.__getattr__ ec "upload"
  | Ecr c =>
      ECRConnector.upload svc grb addr addr' c local_name upload_name upload_tag
  end.

(** [connector.upload(name, stream)] on a channel. *)
Definition channel_upload {W} (svc : services W) (c : s3_channel)
    (name : string) (data : stream) : M (state W) string :=
  match c with
  | NoS3 ec => ExceptionConnector.__getattr__ ec "upload"
  | S3 s3 => S3Connector.upload svc s3 name data
  end.

Definition upload_signature {W} (svc : services W) (self : t)
    (artifact_type sig_name : string) (sig_stream : stream) : M (state W) string :=
  let path := artifact_type +:+ "/" +:+ sig_name in
  channel_upload svc (signature_connector self) path sig_stream.

(** [upload_generic(self, name, stream, properties={})]. *)
Definition upload_generic {W} (svc : services W) (self : t) (name : string)
    (data : stream) (properties : dict) : M (state W) string :=
  channel_upload svc (generic_connector self) name data.




(** [get_docker_upload_registry]: [self.ecr.registry_list[0]]. *)
Definition get_docker_upload_registry {St} (self : t) : M St string :=
  match ecr self with
  | NoDocker ec => ExceptionConnector.__getattr__ ec "registry_list"
  | Ecr c => first_item (DockerConnector.registry_list (ECRConnector.base c))
  end.

End AWSRemote.

(** ** ArtifactoryRemote *)

Module ArtifactoryRemote.

Inductive signature_channel : Type :=
| NoSignatures (c : ExceptionConnector.t)
| Signatures (c : HTTPBasicAuthConnector.t).

Inductive generic_channel : Type :=
| NoGeneric (c : ExceptionConnector.t)
| Generic (c : HTTPBasicAuthConnector2Phase.t).

(** The docker channel has no setup method: it stays an
    [ExceptionConnector]. *)
Record t : Type := {
  username : string;
  password : string;
  docker : ExceptionConnector.t;
  signature_connector : signature_channel;
  generic_connector : generic_channel
}.

(** [__init__(username, password)].  The class defines no [__str__] and
    its base [windlass.api.Remote] is not among the sources: [repr] is
    what [%s] prints for the remote. *)
Definition __init__ (repr username password : string) : t :=
  let unconfigured atype :=
    {| ExceptionConnector.remote := repr;
       ExceptionConnector.artifact_type := atype |} in
  {| username := username;
     password := password;
     docker := unconfigured "docker";
     signature_connector := NoSignatures (unconfigured "signatures");
     generic_connector := NoGeneric (unconfigured "generic") |}.

Definition setup_signatures (self : t) (url : string) : t :=
  {| username := username self;
     password := password self;
     docker := docker self;
     signature_connector :=
       Signatures
         {| HTTPBasicAuthConnector.base_url := url;
            HTTPBasicAuthConnector.username := username self;
            HTTPBasicAuthConnector.password := password self |};
     generic_connector := generic_connector self |}.

Definition setup_generic (self : t) (url temp_path : string) : t :=
  {| username := username self;
     password := password self;
     docker := docker self;
     signature_connector := signature_connector self;
     generic_connector :=
       Generic
         {| HTTPBasicAuthConnector2Phase.super :=
              {| HTTPBasicAuthConnector.base_url := url;
                 HTTPBasicAuthConnector.username := username self;
                 HTTPBasicAuthConnector.password := password self |};
            HTTPBasicAuthConnector2Phase.temp_path := temp_path |} |}.

Definition upload_docker {St} (self : t) (local_name : string)
    (upload_name upload_tag : option string) : M St string :=
  ExceptionConnector.__getattr__ (docker self) "upload".

(** [upload_signature]: the connector's [upload] with its default, empty
    [properties]. *)
Definition upload_signature {W} (svc : services W) (self : t)
    (artifact_type sig_name : string) (sig_stream : stream) : M (state W) string :=
  let path := artifact_type +:+ "/" +:+ sig_name in
  match signature_connector self with
  | NoSignatures ec => ExceptionConnector.__getattr__ ec "upload"
  | Signatures c => HTTPBasicAuthConnector.upload svc c path sig_stream []
  end.

Definition upload_generic {W} (svc : services W) (self : t) (name : string)
    (data : stream) (properties : dict) : M (state W) string :=
  match generic_connector self with
  | NoGeneric ec => ExceptionConnector.__getattr__ ec "upload"
  | Generic c => HTTPBasicAuthConnector2Phase.upload svc c name data properties
  end.

(** The remotes one gets from [__init__] by any series of setup calls. *)
Inductive setup_call : Type :=
| SetupSignatures (url : string)
| SetupGeneric (url temp_path : string).

Definition setup (self : t) (c : setup_call) : t :=
  match c with
  | SetupSignatures url => setup_signatures self url
  | SetupGeneric url temp_path => setup_generic self url temp_path
  end.

End ArtifactoryRemote.

(** ** Products (windlass/products.py) *)

Module Products.

(** What [yaml.load] yields below the top level: scalars, sequences and
    mappings with string keys (floats are left out). *)
Inductive yaml : Type :=
| YNull
| YBool (b : bool)
| YInt (z : Z)
| YStr (s : string)
| YSeq (l : list yaml)
| YMap (m : list (string * yaml)).

(** What a [for] loop over a loaded value visits: the elements of a
    sequence, the keys of a mapping, the characters of a string; the other
    values are not iterable. *)
Definition iterate (v : yaml) : outcome (list yaml) :=
  match v with
  | YSeq l => Returned l
  | YMap m => Returned (map (fun kv => YStr (fst kv)) m)
  | YStr s =>
      Returned (map (fun c => YStr (String c EmptyString)) (list_ascii_of_string s))
  | YNull => Raised (Exn TypeError "'NoneType' object is not iterable" None)
  | YBool _ => Raised (Exn TypeError "'bool' object is not iterable" None)
  | YInt _ => Raised (Exn TypeError "'int' object is not iterable" None)
  end.

(** The files the loader sees: whether a path exists, and what opening,
    reading and parsing it gives.  A products file holds a mapping with
    string keys at its top level. *)
Record filesystem : Type := {
  path_exists : string -> bool;
  read_yaml : string -> outcome (gmap string yaml)
}.

(** The two attributes of a [Products] object; [Item] is the type of
    [windlass.images.Image]. *)
Record t (Item : Type) : Type := {
  items : list Item;
  data : gmap string yaml
}.
Arguments items {Item} _.
Arguments data {Item} _.

Section load.
(** [Image] stands for the constructor [windlass.images.Image], which is
    not among the sources and may raise. *)
Context {Item : Type} (fs : filesystem) (Image : yaml -> outcome Item).

(** [for image_def in ...: self.items.append(Image(image_def))]. *)
Fixpoint append_images (image_defs : list yaml) : M (t Item) unit :=
  match image_defs with
  | [] => ret tt
  | image_def :: rest =>
      item <- of_outcome (Image image_def) ;;
      (fun self =>
         (Returned tt, {| items := items self ++ [item]; data := data self |})) ;;;
      append_images rest
  end.

(** [self.data.update(product_def)]: the keys of [product_def] replace
    those of [self.data]. *)
Definition update_data (product_def : gmap string yaml) : M (t Item) unit :=
  fun self =>
    (Returned tt, {| items := items self; data := product_def ∪ data self |}).

(** One iteration of the loop of [load]. *)
Definition load_file (product_file : string) : M (t Item) unit :=
  if negb (path_exists fs product_file) then ret tt
  else
    product_def <- of_outcome (read_yaml fs product_file) ;;
    update_data product_def ;;;
    match product_def !! "images" with
    | Some images =>
        image_defs <- of_outcome (iterate images) ;;
        append_images image_defs
    | None => ret tt
    end.

(** [load(self, products_to_parse=[])]. *)
Fixpoint load (products_to_parse : list string) : M (t Item) unit :=
  match products_to_parse with
  | [] => ret tt
  | product_file :: rest => load_file product_file ;;; load rest
  end.

(** [Products(products_to_parse=[])]: the object, unless loading raises. *)
Definition __init__ (products_to_parse : list string) : outcome (t Item) :=
  match load products_to_parse {| items := []; data := ∅ |} with
  | (Returned _, self) => Returned self
  | (Raised e, _) => Raised e
  end.

(** [__iter__]: the items, in the order of the list. *)
Definition __iter__ (self : t Item) : list Item := items self.

End load.

End Products.

(** ** Relations between states

    What a computation may do to the state, as a relation between the
    state before and the state after. *)

(** Every run of [m] takes a state to a state related to it by [R]. *)
Definition respects {St A} (R : St -> St -> Prop) (m : M St A) : Prop :=
  forall s, R s (snd (m s)).

(** The catalog is the same and the log has grown by calls that all
    satisfy [P]. *)
Definition grows_by {W} (P : event -> Prop) (s s' : state W) : Prop :=
  existing_repos s' = existing_repos s
  /\ exists new, events s' = (events s ++ new)%list /\ Forall P new.

Definition not_create (ev : event) : Prop :=
  forall n, ev <> EcrCreateRepository n.

Definition creates_only (name : string) (ev : event) : Prop :=
  forall n, ev = EcrCreateRepository n -> n = name.

(** The catalog has not shrunk, and no repository that was in it has been
    created. *)
Definition safe {W} (s s' : state W) : Prop :=
  existing_repos s ⊆ existing_repos s'
  /\ exists new,
       events s' = (events s ++ new)%list
       /\ forall n, EcrCreateRepository n ∈ new -> n ∉ existing_repos s.

(** The log has grown by calls among which every alias tagged has been
    removed. *)
Definition cleaned {W} (s s' : state W) : Prop :=
  exists new,
    events s' = (events s ++ new)%list
    /\ DockerConnector.aliases_removed None new = true.

(** An ECR call about the repository [name]. *)
Definition ecr_call_for (name : string) (ev : event) : Prop :=
  ev = EcrCreateRepository name
  \/ exists policy, ev = EcrSetRepositoryPolicy name policy.

(** For a [Products] object: the items only grow at the end, and the data
    keep their keys. *)
Definition keeps_loaded {Item} (self self' : Products.t Item) : Prop :=
  Products.items self `prefix_of` Products.items self'
  /\ dom (Products.data self) ⊆ dom (Products.data self').

(** ** Concrete services and operations

    Small closed instances on which the statements below are evaluated. *)

Module Fixtures.

Definition boom : exn := Exn api.RetryableFailure "boom" None.
Definition bad_value : exn := Exn ValueError "bad value" None.
Definition daemon_down : exn :=
  Exn (Derived "DockerException" Exception)
    "Error while fetching server API version" None.

(** An operation over a call counter: it raises [boom] on its first [k]
    calls and returns ["ok"] afterwards. *)
Definition flaky (k : nat) : pyfunc nat unit string :=
  {| fn_repr := "<function flaky at 0x7f00>";
     fn_call := fun _ n =>
       if Nat.ltb n k then (Raised boom, S n) else (Returned "ok", S n) |}.

(** An operation that always raises [boom]. *)
Definition hopeless : pyfunc nat unit string :=
  {| fn_repr := "<function hopeless at 0x7f01>";
     fn_call := fun _ n => (Raised boom, S n) |}.

(** An operation that raises a [ValueError]. *)
Definition broken : pyfunc nat unit string :=
  {| fn_repr := "<function broken at 0x7f02>";
     fn_call := fun _ n => (Raised bad_value, S n) |}.

(** The decorator with its defaults: three attempts, five seconds. *)
Definition default_retry : remote_retry.t :=
  remote_retry.__init__ global_retry_backoff None None None.

(** Services over a call counter: every call succeeds, a PUT answers
    [put_status], a HEAD answers [head_status], and ECR lists [pages]. *)
Definition answering (put_status head_status : Z) (pages : list (list string))
    : services nat :=
  {| docker_from_env := fun n => (Returned tt, S n);
     docker_api_tag := fun _ _ _ n => (Returned tt, S n);
     docker_images_push := fun _ _ _ _ n => (Returned ["pushed"], S n);
     check_docker_stream := fun _ n => (Returned tt, n);
     docker_api_remove_image := fun _ n => (Returned tt, S n);
     ecr_describe_repositories := fun n => (Returned pages, S n);
     ecr_create_repository := fun name n => (Returned ("ecr/" +:+ name), S n);
     ecr_set_repository_policy := fun _ _ n => (Returned tt, S n);
     s3_upload_fileobj := fun _ _ _ n => (Returned tt, S n);
     requests_head := fun _ n => (Returned {| status_code := head_status |}, S n);
     requests_put := fun _ _ _ _ n =>
       (Returned {| status_code := put_status |}, S n) |}.

Definition quiet : services nat := answering 201 404 [].

(** The same services behind a Docker daemon that cannot be reached. *)
Definition unreachable_daemon : services nat :=
  {| docker_from_env := fun n => (Raised daemon_down, S n);
     docker_api_tag := docker_api_tag quiet;
     docker_images_push := docker_images_push quiet;
     check_docker_stream := check_docker_stream quiet;
     docker_api_remove_image := docker_api_remove_image quiet;
     ecr_describe_repositories := ecr_describe_repositories quiet;
     ecr_create_repository := ecr_create_repository quiet;
     ecr_set_repository_policy := ecr_set_repository_policy quiet;
     s3_upload_fileobj := s3_upload_fileobj quiet;
     requests_head := requests_head quiet;
     requests_put := requests_put quiet |}.

(** The same services with a repository that a concurrent publisher has
    just created. *)
Definition raced : services nat :=
  {| docker_from_env := docker_from_env quiet;
     docker_api_tag := docker_api_tag quiet;
     docker_images_push := docker_images_push quiet;
     check_docker_stream := check_docker_stream quiet;
     docker_api_remove_image := docker_api_remove_image quiet;
     ecr_describe_repositories := ecr_describe_repositories quiet;
     ecr_create_repository := fun name n =>
       (Raised (Exn ecr_exceptions.RepositoryAlreadyExistsException
                  "An error occurred (RepositoryAlreadyExistsException)" None),
        S n);
     ecr_set_repository_policy := ecr_set_repository_policy quiet;
     s3_upload_fileobj := s3_upload_fileobj quiet;
     requests_head := requests_head quiet;
     requests_put := requests_put quiet |}.

Definition start (catalog : gset string) : state nat :=
  {| world := 0; events := []; existing_repos := catalog |}.

Definition fresh (catalog : gset string) : rstate (state nat) :=
  {| inner := start catalog; rlog := [] |}.

Definition registry : DockerConnector.t :=
  {| DockerConnector.registry_list := ["reg.example.com"];
     DockerConnector.username := "user";
     DockerConnector.password := "secret" |}.

Definition managed : ECRConnector.t :=
  {| ECRConnector.path_prefixes := ECRConnector.init_path_prefixes
                                     (ECRConnector.OnePrefix "team/");
     ECRConnector.new_repo_policy := Some "{policy}";
     ECRConnector.base := registry |}.

Definition artifactory : HTTPBasicAuthConnector.t :=
  {| HTTPBasicAuthConnector.base_url := "https://host/repo";
     HTTPBasicAuthConnector.username := "user";
     HTTPBasicAuthConnector.password := "secret" |}.

Definition staged : HTTPBasicAuthConnector2Phase.t :=
  {| HTTPBasicAuthConnector2Phase.super := artifactory;
     HTTPBasicAuthConnector2Phase.temp_path := "staging" |}.

Definition aws : AWSRemote.t :=
  AWSRemote.setup_generic
    (AWSRemote.__init__
       {| key_id := "AKIA"; secret_key := "secret"; region := Some "eu-west-1" |})
    "bucket" (Some "generic/").

(** A [KeyboardInterrupt], an operation that raises it, and a decorator
    asked to retry on it. *)
Definition interrupt : exn := Exn KeyboardInterrupt "" None.

Definition interrupted : pyfunc nat unit string :=
  {| fn_repr := "<function interrupted at 0x7f03>";
     fn_call := fun _ n => (Raised interrupt, S n) |}.

Definition eager_retry : remote_retry.t :=
  remote_retry.__init__ global_retry_backoff None None (Some [KeyboardInterrupt]).

(** An exception of a class derived from [RetryableFailure]. *)
Definition timed_out : exn :=
  Exn (Derived "UploadTimeout" api.RetryableFailure) "timed out" None.

(** Services replacing some of the answers of [quiet]. *)
Definition conflict : exn := Exn (Derived "APIError" Exception) "conflict" None.

Definition failing_cleanup : services nat :=
  {| docker_from_env := docker_from_env quiet;
     docker_api_tag := docker_api_tag quiet;
     docker_images_push := docker_images_push quiet;
     check_docker_stream := check_docker_stream quiet;
     docker_api_remove_image := fun _ n => (Raised conflict, S n);
     ecr_describe_repositories := ecr_describe_repositories quiet;
     ecr_create_repository := ecr_create_repository quiet;
     ecr_set_repository_policy := ecr_set_repository_policy quiet;
     s3_upload_fileobj := s3_upload_fileobj quiet;
     requests_head := requests_head quiet;
     requests_put := requests_put quiet |}.

Definition access_denied : exn :=
  Exn (Derived "AccessDeniedException" ecr_exceptions.ClientError)
    "not authorized" None.

Definition denied : services nat :=
  {| docker_from_env := docker_from_env quiet;
     docker_api_tag := docker_api_tag quiet;
     docker_images_push := docker_images_push quiet;
     check_docker_stream := check_docker_stream quiet;
     docker_api_remove_image := docker_api_remove_image quiet;
     ecr_describe_repositories := ecr_describe_repositories quiet;
     ecr_create_repository := fun _ n => (Raised access_denied, S n);
     ecr_set_repository_policy := ecr_set_repository_policy quiet;
     s3_upload_fileobj := s3_upload_fileobj quiet;
     requests_head := requests_head quiet;
     requests_put := requests_put quiet |}.

Definition not_found_yet : exn :=
  Exn ecr_exceptions.RepositoryNotFoundException "repository not found" None.

Definition exists_already : exn :=
  Exn ecr_exceptions.RepositoryAlreadyExistsException "repository exists" None.

(** A registry in which a repository just created is not visible to
    [set_repository_policy] until the third call. *)
Definition eventually_consistent : services nat :=
  {| docker_from_env := docker_from_env quiet;
     docker_api_tag := docker_api_tag quiet;
     docker_images_push := docker_images_push quiet;
     check_docker_stream := check_docker_stream quiet;
     docker_api_remove_image := docker_api_remove_image quiet;
     ecr_describe_repositories := ecr_describe_repositories quiet;
     ecr_create_repository := fun name n =>
       if Nat.eqb n 0 then (Returned ("ecr/" +:+ name), S n)
       else (Raised exists_already, S n);
     ecr_set_repository_policy := fun _ _ n =>
       if Nat.ltb n 2 then (Raised not_found_yet, S n) else (Returned tt, S n);
     s3_upload_fileobj := s3_upload_fileobj quiet;
     requests_head := requests_head quiet;
     requests_put := requests_put quiet |}.

(** An HTTP server that cannot be reached for a HEAD. *)
Definition connection_error : exn :=
  Exn (Derived "ConnectionError" Exception) "connection refused" None.

Definition no_head : services nat :=
  {| docker_from_env := docker_from_env quiet;
     docker_api_tag := docker_api_tag quiet;
     docker_images_push := docker_images_push quiet;
     check_docker_stream := check_docker_stream quiet;
     docker_api_remove_image := docker_api_remove_image quiet;
     ecr_describe_repositories := ecr_describe_repositories quiet;
     ecr_create_repository := ecr_create_repository quiet;
     ecr_set_repository_policy := ecr_set_repository_policy quiet;
     s3_upload_fileobj := s3_upload_fileobj quiet;
     requests_head := fun _ n => (Raised connection_error, S n);
     requests_put := requests_put quiet |}.

Definition unstaged : HTTPBasicAuthConnector2Phase.t :=
  {| HTTPBasicAuthConnector2Phase.super := artifactory;
     HTTPBasicAuthConnector2Phase.temp_path := "" |}.

Definition artifactory_remote : ArtifactoryRemote.t :=
  ArtifactoryRemote.__init__ "ArtifactoryRemote(user)" "user" "secret".

(** A products directory with two files, and an [Image] constructor that
    accepts the images given by name. *)
Definition products_files : Products.filesystem :=
  {| Products.path_exists := fun f =>
       String.eqb f "base.yml" || String.eqb f "extra.yml";
     Products.read_yaml := fun f =>
       if String.eqb f "base.yml" then
         Returned {[ "images" := Products.YSeq [Products.YStr "a"; Products.YStr "b"];
                     "owner" := Products.YStr "base" ]}
       else
         Returned {[ "images" := Products.YSeq [Products.YStr "c"];
                     "owner" := Products.YStr "extra" ]} |}.

Definition named_image (v : Products.yaml) : outcome string :=
  match v with
  | Products.YStr name => Returned name
  | _ => Raised (Exn TypeError "string indices must be integers" None)
  end.

End Fixtures.

(** * Properties *)

(** ** The retry decorator *)

Section RetryFacts.
Context {St Args A : Type}.
Variables (self : remote_retry.t) (func : pyfunc St Args A) (args : Args).

Import remote_retry.

Lemma retry_loop_returns n s v st :
  fn_call func args (inner s) = (Returned v, st) ->
  retry_loop self func args (S n) s
  = (Returned v, {| inner := st; rlog := rlog s |}).
Proof. intros Hcall. simpl. now rewrite Hcall. Qed.

Lemma retry_loop_propagates n s e st :
  fn_call func args (inner s) = (Raised e, st) ->
  existsb (isinstance e) (retry_on self) = false ->
  retry_loop self func args (S n) s
  = (Raised e, {| inner := st; rlog := rlog s |}).
Proof.
  intros Hcall Hnot. simpl. rewrite Hcall, Hnot. simpl.
  now destruct (isinstance e Exception).
Qed.

Lemma retry_loop_retries n s :
  fails_retryably self func args (inner s) = true ->
  retry_loop self func args (S n) s
  = retry_loop self func args n
      {| inner := snd (fn_call func args (inner s));
         rlog := rlog s ++ backoff self func |}.
Proof.
  unfold fails_retryably, retryable. simpl.
  destruct (fn_call func args (inner s)) as [[v | e] st]; simpl.
  - discriminate.
  - intros Hretry. apply andb_prop in Hretry as [Hexc Hon].
    now rewrite Hexc, Hon.
Qed.

(** After [k] retryable failures in a row the loop is where it would be
    had it started from the state they lead to, [k] back-offs later. *)
Lemma retry_loop_after_failures k : forall n s,
  (forall i, i < k ->
     fails_retryably self func args
       (state_after func args i (inner s)) = true) ->
  retry_loop self func args (k + n) s
  = retry_loop self func args n
      {| inner := state_after func args k (inner s);
         rlog := rlog s ++ mjoin (replicate k (backoff self func)) |}.
Proof.
  induction k as [| k IH]; intros n s Hfail.
  - simpl. rewrite app_nil_r. now destruct s.
  - change (S k + n) with (S (k + n)).
    rewrite retry_loop_retries by (apply (Hfail 0); lia).
    rewrite IH.
    + simpl. now rewrite <- app_assoc.
    + intros i Hi. simpl. apply (Hfail (S i)). lia.
Qed.

Lemma sleeps_app l l' : sleeps (l ++ l') = sleeps l + sleeps l'.
Proof. unfold sleeps. now rewrite filter_app, length_app. Qed.

Lemma sleeps_backoffs k :
  sleeps (mjoin (replicate k (backoff self func))) = k.
Proof.
  induction k as [| k IH]; [reflexivity |].
  change (mjoin (replicate (S k) (backoff self func)))
    with (backoff self func ++ mjoin (replicate k (backoff self func)))%list.
  rewrite sleeps_app, IH. reflexivity.
Qed.

(** Whatever relation between states every attempt respects, and that is
    reflexive and transitive, the decorated call respects too. *)
Lemma retry_loop_respects (R : St -> St -> Prop) :
  (forall s, R s s) ->
  (forall s1 s2 s3, R s1 s2 -> R s2 s3 -> R s1 s3) ->
  (forall s, R s (snd (fn_call func args s))) ->
  forall n s, R (inner s) (inner (snd (retry_loop self func args n s))).
Proof.
  intros Hrefl Htrans Hstep. induction n as [| n IH]; intros s.
  - apply Hrefl.
  - simpl. pose proof (Hstep (inner s)) as H1.
    destruct (fn_call func args (inner s)) as [[v | e] st]; simpl in *.
    + exact H1.
    + destruct (isinstance e Exception); [| exact H1].
      destruct (existsb (isinstance e) (retry_on self)); simpl; [| exact H1].
      eapply Htrans; [exact H1 |]. apply (IH {| inner := st; rlog := _ |}).
Qed.

End RetryFacts.

(** C7.  A failure outside the retryable set raised by the first
    invocation of the wrapped operation comes out of the decorated call
    unchanged: the operation has run once, and the decorator has neither
    logged nor slept. *)
Theorem non_retryable_failure_propagates :
  forall (St Args A : Type) (self : remote_retry.t) (func : pyfunc St Args A)
         (args : Args) (s : rstate St) (e : exn) (st : St),
    (1 <= remote_retry.max_retries self)%Z ->
    fn_call func args (inner s) = (Raised e, st) ->
    existsb (isinstance e) (remote_retry.retry_on self) = false ->
    remote_retry.__call__ self func args s
    = (Raised e, {| inner := st; rlog := rlog s |})
    /\ remote_retry.sleeps (rlog (snd (remote_retry.__call__ self func args s)))
       = remote_retry.sleeps (rlog s).
Proof.
  intros St Args A self func args s e st Hmax Hcall Hnot.
  assert (Heq : remote_retry.__call__ self func args s
                = (Raised e, {| inner := st; rlog := rlog s |})).
  { unfold remote_retry.__call__.
    destruct (Z.to_nat (remote_retry.max_retries self)) as [| n] eqn:Hn; [lia |].
    now apply retry_loop_propagates. }
  split; [exact Heq | now rewrite Heq].
Qed.

(** C3.  When the wrapped operation raises retryable failures on its first
    [k] attempts, [k] smaller than [max_retries], and returns [v] on the
    next one, the decorated call returns [v]; the operation has run [k + 1]
    times and the decorator has slept exactly [k] times, [retry_backoff]
    seconds each. *)
Theorem retry_succeeds_after_k_failures :
  forall (St Args A : Type) (self : remote_retry.t) (func : pyfunc St Args A)
         (args : Args) (s : rstate St) (k : nat) (v : A) (st : St),
    (Z.of_nat k < remote_retry.max_retries self)%Z ->
    (forall i, i < k ->
       remote_retry.fails_retryably self func args
         (remote_retry.state_after func args i (inner s)) = true) ->
    fn_call func args (remote_retry.state_after func args k (inner s))
    = (Returned v, st) ->
    let r := remote_retry.__call__ self func args s in
    r = (Returned v,
         {| inner := st;
            rlog := rlog s
                      ++ mjoin (replicate k (remote_retry.backoff self func)) |})
    /\ remote_retry.sleeps (rlog (snd r)) = remote_retry.sleeps (rlog s) + k.
Proof.
  intros St Args A self func args s k v st Hk Hfail Hok r.
  assert (Heq : r = (Returned v,
                     {| inner := st;
                        rlog := rlog s
                          ++ mjoin (replicate k (remote_retry.backoff self func)) |})).
  { subst r. unfold remote_retry.__call__.
    replace (Z.to_nat (remote_retry.max_retries self))
      with (k + S (Z.to_nat (remote_retry.max_retries self) - S k)) by lia.
    rewrite retry_loop_after_failures by exact Hfail.
    now apply retry_loop_returns. }
  split; [exact Heq |].
  rewrite Heq. simpl. now rewrite sleeps_app, sleeps_backoffs.
Qed.

(** C1 (as amended).  When the wrapped operation raises a retryable
    failure on each of its [max_retries] attempts, the decorated call
    raises a plain [Exception] whose message names the operation and
    [max_retries]; no exception is chained to it.  The decorator has slept
    after every attempt. *)
Theorem retries_exhausted :
  forall (St Args A : Type) (self : remote_retry.t) (func : pyfunc St Args A)
         (args : Args) (s : rstate St),
    (forall i, i < Z.to_nat (remote_retry.max_retries self) ->
       remote_retry.fails_retryably self func args
         (remote_retry.state_after func args i (inner s)) = true) ->
    let n := Z.to_nat (remote_retry.max_retries self) in
    remote_retry.__call__ self func args s
    = (Raised
         (Exn Exception
            (fn_repr func +:+ ": Maximum number of retries occurred ("
               +:+ pretty (remote_retry.max_retries self) +:+ ")")
            None),
       {| inner := remote_retry.state_after func args n (inner s);
          rlog := rlog s
                    ++ mjoin (replicate n (remote_retry.backoff self func)) |})
    /\ issubclass Exception api.RetryableFailure = false.
Proof.
  intros St Args A self func args s Hfail n. split; [| reflexivity].
  unfold remote_retry.__call__. fold n.
  replace n with (n + 0) at 1 by lia.
  now rewrite retry_loop_after_failures by exact Hfail.
Qed.

(** A [ValueError] under the default decorator. *)
Lemma non_retryable_failure_propagates_witness :
  (1 <= remote_retry.max_retries Fixtures.default_retry)%Z
  /\ remote_retry.__call__ Fixtures.default_retry Fixtures.broken tt
       {| inner := 0; rlog := [] |}
     = (Raised Fixtures.bad_value, {| inner := 1; rlog := [] |}).
Proof.
  split; [discriminate |].
  apply (non_retryable_failure_propagates nat unit string
           Fixtures.default_retry Fixtures.broken tt
           {| inner := 0; rlog := [] |} Fixtures.bad_value 1);
    [discriminate | reflexivity | reflexivity].
Defined.

(** Two failures, then ["ok"], under the default decorator. *)
Lemma retry_succeeds_after_k_failures_witness :
  (2 < remote_retry.max_retries Fixtures.default_retry)%Z
  /\ fst (remote_retry.__call__ Fixtures.default_retry (Fixtures.flaky 2) tt
            {| inner := 0; rlog := [] |}) = Returned "ok"
  /\ remote_retry.sleeps
       (rlog (snd (remote_retry.__call__ Fixtures.default_retry
                     (Fixtures.flaky 2) tt {| inner := 0; rlog := [] |}))) = 2.
Proof.
  split; [reflexivity |].
  destruct (retry_succeeds_after_k_failures nat unit string
              Fixtures.default_retry (Fixtures.flaky 2) tt
              {| inner := 0; rlog := [] |} 2 "ok" 3) as [Hcall Hsleeps].
  - reflexivity.
  - intros i Hi. destruct i as [| [| i]]; [reflexivity | reflexivity | lia].
  - reflexivity.
  - split; [now rewrite Hcall | exact Hsleeps].
Defined.

(** Three failures under the default decorator. *)
Lemma retries_exhausted_witness :
  fst (remote_retry.__call__ Fixtures.default_retry Fixtures.hopeless tt
         {| inner := 0; rlog := [] |})
  = Raised
      (Exn Exception
         "<function hopeless at 0x7f01>: Maximum number of retries occurred (3)"
         None).
Proof.
  destruct (retries_exhausted nat unit string
              Fixtures.default_retry Fixtures.hopeless tt
              {| inner := 0; rlog := [] |}) as [Hcall _].
  - intros i Hi. destruct i as [| [| [| i]]];
      [reflexivity | reflexivity | reflexivity | simpl in Hi; lia].
  - now rewrite Hcall.
Defined.

(** C1 (as stated) fails: with the default decorator and an operation
    that raises the retryable [boom] on each of its three attempts, the
    error raised at the end does not wrap [boom]. *)
Lemma max_retries_error_wraps_nothing :
  (forall i, i < 3 ->
     remote_retry.failure_at Fixtures.hopeless tt
       (remote_retry.state_after Fixtures.hopeless tt i 0) = Some Fixtures.boom)
  /\ remote_retry.retryable Fixtures.default_retry Fixtures.boom = true
  /\ exists e,
       fst (remote_retry.__call__ Fixtures.default_retry Fixtures.hopeless tt
              {| inner := 0; rlog := [] |}) = Raised e
       /\ ~ wraps e Fixtures.boom.
Proof.
  split; [| split].
  - intros i _. reflexivity.
  - reflexivity.
  - eexists. split; [reflexivity |]. intros Hwraps. inversion Hwraps.
Qed.

(** ** The HTTP connectors *)

Lemma append_empty_l a b : a +:+ b = "" -> a = "".
Proof. now destruct a. Qed.

Lemma concat_nonempty sep x l : x <> "" -> String.concat sep (x :: l) <> "".
Proof.
  intros Hx. destruct l as [| y l]; simpl; [exact Hx |].
  intros Hnil. now apply append_empty_l in Hnil.
Qed.

Lemma props_nonempty (properties : dict) :
  properties <> [] ->
  String.eqb (HTTPBasicAuthConnector.props properties) "" = false.
Proof.
  intros Hne. apply String.eqb_neq.
  destruct properties as [| [k v] rest]; [congruence |].
  unfold HTTPBasicAuthConnector.props, join, dict_items. simpl map.
  apply concat_nonempty. simpl. intros Hnil.
  destruct k; simpl in Hnil; discriminate.
Qed.

Lemma dict_set_fresh k v (d : dict) :
  k ∉ map fst d -> dict_set k v d = (d ++ [(k, v)])%list.
Proof.
  induction d as [| [k' v'] d IH]; intros Hfresh; [reflexivity |].
  simpl in *. apply not_elem_of_cons in Hfresh as [Hne Hfresh].
  destruct (String.eqb_spec k k') as [-> | _]; [congruence |].
  now rewrite IH.
Qed.

Lemma dict_of_assignments_from (kvs : list (string * string)) : forall d : dict,
  NoDup (map fst d ++ map fst kvs) ->
  fold_left (fun d kv => dict_set (fst kv) (snd kv) d) kvs d = (d ++ kvs)%list.
Proof.
  induction kvs as [| [k v] kvs IH]; intros d Hnodup; simpl.
  - now rewrite app_nil_r.
  - rewrite dict_set_fresh.
    + rewrite IH; [now rewrite <- app_assoc |].
      rewrite map_app. simpl. now rewrite <- app_assoc.
    + simpl in Hnodup. apply NoDup_app in Hnodup as (_ & Hdisj & _).
      intros Hin. apply (Hdisj k Hin). left.
Qed.

Lemma os_path_join_plain a b :
  a <> "" -> endswith_sep a = false -> startswith_sep b = false ->
  os_path_join a b = a +:+ "/" +:+ b.
Proof.
  intros Ha Hend Hstart. unfold os_path_join. rewrite Hstart, Hend.
  apply String.eqb_neq in Ha. now rewrite Ha.
Qed.

(** C8.  The URL of a PUT is [os.path.join(base_url, upload_name)] alone
    when [properties] is empty; otherwise it is followed by [;] and the
    [key=value] pairs of [properties], separated by [;], in the order of
    the dict's items, which is the order in which the caller assigned the
    keys.  [os.path.join] puts a single [/] between a base without a
    trailing slash and a name without a leading one. *)
Theorem matrix_parameters_in_insertion_order :
  forall (self : HTTPBasicAuthConnector.t) (upload_name : string),
    let base := HTTPBasicAuthConnector.base_url self in
    HTTPBasicAuthConnector.upload_url self upload_name []
    = os_path_join base upload_name
    /\ (forall properties : dict,
          properties <> [] ->
          HTTPBasicAuthConnector.upload_url self upload_name properties
          = os_path_join base upload_name +:+ ";"
              +:+ join ";" (map (fun kv => fst kv +:+ "=" +:+ snd kv)
                              (dict_items properties)))
    /\ (forall kvs : list (string * string),
          NoDup (map fst kvs) -> dict_items (dict_of_assignments kvs) = kvs)
    /\ (forall (W : Type) (svc : services W) (data : stream)
               (properties : dict) (s : state W),
          events (snd (HTTPBasicAuthConnector.upload svc self upload_name
                         data properties s))
          = (events s
               ++ [HttpPut
                     (HTTPBasicAuthConnector.upload_url self upload_name properties)
                     data (HTTPBasicAuthConnector.username self)
                     (HTTPBasicAuthConnector.password self)])%list)
    /\ (base <> "" -> endswith_sep base = false ->
        startswith_sep upload_name = false ->
        os_path_join base upload_name = base +:+ "/" +:+ upload_name).
Proof.
  intros self upload_name base. repeat split.
  - intros properties Hne. unfold HTTPBasicAuthConnector.upload_url.
    now rewrite props_nonempty.
  - intros kvs Hnodup. unfold dict_items, dict_of_assignments.
    now rewrite dict_of_assignments_from.
  - intros W svc data properties s.
    unfold HTTPBasicAuthConnector.upload, bind, call.
    destruct (requests_put _ _ _ _ _ _) as [[resp | e] w]; simpl; [| reflexivity].
    now destruct (negb _).
  - apply os_path_join_plain.
Qed.

(** Two properties assigned in the order [build], [arch]. *)
Lemma matrix_parameters_in_insertion_order_witness :
  HTTPBasicAuthConnector.upload_url Fixtures.artifactory "a.tar"
    (dict_of_assignments [("build", "42"); ("arch", "x86")])
  = "https://host/repo/a.tar;build=42;arch=x86".
Proof.
  destruct (matrix_parameters_in_insertion_order Fixtures.artifactory "a.tar")
    as (_ & Hsuffix & Horder & _ & Hjoin).
  rewrite Hsuffix by discriminate.
  rewrite Hjoin by (discriminate || reflexivity).
  reflexivity.
Defined.

(** C5.  Once [requests.put] has answered, the upload returns its URL if
    and only if the status is 201; with any other status it raises a
    [RetryableFailure] whose message holds the status and the URL, and
    which every retry decorator retries. *)
Theorem upload_succeeds_iff_created :
  forall (W : Type) (svc : services W) (self : HTTPBasicAuthConnector.t)
         (upload_name : string) (data : stream) (properties : dict)
         (s : state W) (resp : response) (w : W),
    let url := HTTPBasicAuthConnector.upload_url self upload_name properties in
    let user := HTTPBasicAuthConnector.username self in
    let pass := HTTPBasicAuthConnector.password self in
    requests_put svc url data user pass (world s) = (Returned resp, w) ->
    let r := HTTPBasicAuthConnector.upload svc self upload_name data properties s in
    let s' := {| world := w;
                 events := events s ++ [HttpPut url data user pass];
                 existing_repos := existing_repos s |} in
    let failure :=
      Exn api.RetryableFailure
        ("Failed (status: " +:+ pretty (status_code resp) +:+ ") to upload " +:+ url)
        None in
    (status_code resp = 201%Z -> r = (Returned url, s'))
    /\ (status_code resp <> 201%Z -> r = (Raised failure, s'))
    /\ ((exists v, fst r = Returned v) <-> status_code resp = 201%Z)
    /\ (forall g m b ro,
          remote_retry.retryable (remote_retry.__init__ g m b ro) failure = true).
Proof.
  intros W svc self upload_name data properties s resp w url user pass Hput r s' failure.
  assert (Hr : r = if (status_code resp =? 201)%Z then (Returned url, s')
                   else (Raised failure, s')).
  { subst r. unfold HTTPBasicAuthConnector.upload, bind, call.
    fold url user pass. rewrite Hput.
    now destruct (status_code resp =? 201)%Z. }
  split; [| split; [| split]].
  - intros H201. rewrite Hr. apply Z.eqb_eq in H201. now rewrite H201.
  - intros Hother. rewrite Hr. apply Z.eqb_neq in Hother. now rewrite Hother.
  - rewrite Hr. destruct (Z.eqb_spec (status_code resp) 201) as [H201 | Hother];
      simpl; split; try easy.
    + now exists url.
    + intros [v Hv]. discriminate.
  - intros g m b ro. reflexivity.
Qed.

(** A PUT answered with 500. *)
Lemma upload_succeeds_iff_created_witness :
  fst (HTTPBasicAuthConnector.upload (Fixtures.answering 500 404 [])
         Fixtures.artifactory "a.tar" [] [] (Fixtures.start ∅))
  = Raised
      (Exn api.RetryableFailure
         "Failed (status: 500) to upload https://host/repo/a.tar" None).
Proof.
  destruct (upload_succeeds_iff_created nat (Fixtures.answering 500 404 [])
              Fixtures.artifactory "a.tar" [] [] (Fixtures.start ∅)
              {| status_code := 500 |} 1 eq_refl) as (_ & Hother & _).
  now rewrite Hother.
Defined.

(** C2.  With a staging path set, when the HEAD probe of the final
    location answers with a status that [requests] counts as [ok], the
    upload makes no other call, in particular no PUT, and raises a plain
    [Exception] saying that the artifact already exists; no decorator
    built on the hard-coded retryable set retries it. *)
Theorem published_artifact_is_not_uploaded :
  forall (W : Type) (svc : services W) (self : HTTPBasicAuthConnector2Phase.t)
         (upload_name : string) (data : stream) (properties : dict)
         (s : state W) (check_resp : response) (w : W),
    let check_url :=
      os_path_join
        (HTTPBasicAuthConnector.base_url (HTTPBasicAuthConnector2Phase.super self))
        upload_name in
    HTTPBasicAuthConnector2Phase.temp_path self <> "" ->
    requests_head svc check_url (world s) = (Returned check_resp, w) ->
    ok check_resp = true ->
    let r := HTTPBasicAuthConnector2Phase.upload svc self upload_name data
               properties s in
    let e := Exn Exception ("Artifact " +:+ check_url +:+ " already exists") None in
    r = (Raised e,
         {| world := w;
            events := events s ++ [HttpHead check_url];
            existing_repos := existing_repos s |})
    /\ (forall url d user pass,
          HttpPut url d user pass ∈ events (snd r) ->
          HttpPut url d user pass ∈ events s)
    /\ (forall g m b, remote_retry.retryable (remote_retry.__init__ g m b None) e = false).
Proof.
  intros W svc self upload_name data properties s check_resp w check_url
    Htemp Hhead Hok r e.
  assert (Hr : r = (Raised e,
                    {| world := w;
                       events := events s ++ [HttpHead check_url];
                       existing_repos := existing_repos s |})).
  { subst r. unfold HTTPBasicAuthConnector2Phase.upload, bind, call.
    apply String.eqb_neq in Htemp. rewrite Htemp. fold check_url.
    rewrite Hhead, Hok. reflexivity. }
  split; [exact Hr | split].
  - intros url d user pass. rewrite Hr. simpl.
    rewrite elem_of_app, list_elem_of_singleton. intros [Hin | Heq]; [exact Hin | discriminate].
  - intros g m b. reflexivity.
Qed.

(** A final location that answers 200 to the probe. *)
Lemma published_artifact_is_not_uploaded_witness :
  HTTPBasicAuthConnector2Phase.temp_path Fixtures.staged <> ""
  /\ HTTPBasicAuthConnector2Phase.upload (Fixtures.answering 201 200 [])
       Fixtures.staged "a.tar" [] [] (Fixtures.start ∅)
     = (Raised (Exn Exception "Artifact https://host/repo/a.tar already exists" None),
        {| world := 1;
           events := [HttpHead "https://host/repo/a.tar"];
           existing_repos := ∅ |}).
Proof.
  split; [discriminate |].
  apply (published_artifact_is_not_uploaded nat (Fixtures.answering 201 200 [])
           Fixtures.staged "a.tar" [] [] (Fixtures.start ∅)
           {| status_code := 200 |} 1);
    [discriminate | reflexivity | reflexivity].
Defined.

(** ** AWSRemote *)

(** C9.  [AWSRemote.upload_generic] does not look at [properties]: two
    calls that differ only there do the same thing.  On a channel bound to
    an [S3Connector] that thing is the connector's upload of the same name
    and stream: one [upload_fileobj] under the key [path_prefix + name],
    and the object's URL as result. *)
Theorem upload_generic_ignores_properties :
  forall (W : Type) (svc : services W) (self : AWSRemote.t) (name : string)
         (data : stream) (s : state W),
    (forall p1 p2 : dict,
       AWSRemote.upload_generic svc self name data p1 s
       = AWSRemote.upload_generic svc self name data p2 s)
    /\ (forall (c : S3Connector.t) (p : dict),
          AWSRemote.generic_connector self = AWSRemote.S3 c ->
          AWSRemote.upload_generic svc self name data p s
          = S3Connector.upload svc c name data s)
    /\ (forall (c : S3Connector.t) (p : dict) (w : W),
          AWSRemote.generic_connector self = AWSRemote.S3 c ->
          s3_upload_fileobj svc data (S3Connector.bucket c)
            (S3Connector.path_prefix c +:+ name) (world s) = (Returned tt, w) ->
          AWSRemote.upload_generic svc self name data p s
          = (Returned ("https://" +:+ S3Connector.bucket c +:+ ".s3.amazonaws.com/"
                         +:+ S3Connector.path_prefix c +:+ name),
             {| world := w;
                events := events s
                            ++ [S3UploadFileobj data (S3Connector.bucket c)
                                  (S3Connector.path_prefix c +:+ name)];
                existing_repos := existing_repos s |})).
Proof.
  intros W svc self name data s. split; [reflexivity | split].
  - intros c p Hbound. unfold AWSRemote.upload_generic, AWSRemote.channel_upload.
    now rewrite Hbound.
  - intros c p w Hbound Hput.
    unfold AWSRemote.upload_generic, AWSRemote.channel_upload.
    rewrite Hbound. unfold S3Connector.upload, bind, call. now rewrite Hput.
Qed.

(** A generic channel bound to a bucket with the prefix [generic/]. *)
Lemma upload_generic_ignores_properties_witness :
  AWSRemote.upload_generic Fixtures.quiet Fixtures.aws "a.tar" []
    [("build", "42")] (Fixtures.start ∅)
  = (Returned "https://bucket.s3.amazonaws.com/generic/a.tar",
     {| world := 1;
        events := [S3UploadFileobj [] "bucket" "generic/a.tar"];
        existing_repos := ∅ |}).
Proof.
  destruct (upload_generic_ignores_properties nat Fixtures.quiet Fixtures.aws
              "a.tar" [] (Fixtures.start ∅)) as (_ & _ & Hs3).
  exact (Hs3 _ [("build", "42")] 1 eq_refl eq_refl).
Defined.

(** ** Parsing [name:tag] *)

Lemma split_length sep s : length (split sep s) = S (count sep s).
Proof.
  induction s as [| c s IH]; [reflexivity |].
  simpl. destruct (Ascii.eqb c sep); simpl; [now rewrite IH |].
  destruct (split sep s) as [| h t]; simpl in *; [discriminate | exact IH].
Qed.

Lemma unpack2_raises {St} (parts : list string) (s : St) :
  length parts <> 2 ->
  unpack2 parts s
  = (Raised (Exn ValueError (unpack2_error (length parts)) None), s).
Proof.
  intros Hlen. destruct parts as [| a [| b [| c rest]]];
    first [reflexivity | now contradict Hlen].
Qed.

Lemma unpack2_returns {St} (parts : list string) a b (s : St) :
  parts = [a; b] -> unpack2 parts s = (Returned (a, b), s).
Proof. now intros ->. Qed.

(** C10 (as amended).  A [local_name] that does not contain exactly one
    [:] makes both uploads raise the [ValueError] of the unpacking.
    [ECRConnector.upload] raises it before doing anything else.
    [DockerConnector.upload] raises it once [docker.from_env] has returned
    the client, on the first attempt: nothing is tagged, pushed or removed
    and the decorator neither logs nor sleeps. *)
Theorem malformed_local_name_raises_ValueError :
  forall (W : Type) (svc : services W) (local_name : string),
    count ":" local_name <> 1 ->
    let e := Exn ValueError (unpack2_error (S (count ":" local_name))) None in
    (forall grb addr addr' self upload_name upload_tag (s : rstate (state W)),
       ECRConnector.upload svc grb addr addr' self local_name
         upload_name upload_tag s
       = (Raised e, s))
    /\ (forall addr self upload_name upload_tag (s : rstate (state W)) (w : W),
          docker_from_env svc (world (inner s)) = (Returned tt, w) ->
          DockerConnector.upload svc addr self local_name upload_name upload_tag s
          = (Raised e,
             {| inner := {| world := w;
                            events := events (inner s) ++ [DockerFromEnv];
                            existing_repos := existing_repos (inner s) |};
                rlog := rlog s |})).
Proof.
  intros W svc local_name Hcount e.
  assert (Hlen : length (split ":" local_name) <> 2)
    by (rewrite split_length; lia).
  subst e. rewrite <- split_length. split.
  - intros grb addr addr' self upload_name upload_tag s.
    unfold ECRConnector.upload, bind. now rewrite unpack2_raises.
  - intros addr self upload_name upload_tag s w Henv.
    unfold DockerConnector.upload, remote_retry.__call__.
    change (Z.to_nat (remote_retry.max_retries DockerConnector.upload_retry))
      with 3.
    apply retry_loop_propagates; [| reflexivity].
    simpl. unfold bind, call. rewrite Henv. now rewrite unpack2_raises.
Qed.

(** A name without [:] and a daemon that answers. *)
Lemma malformed_local_name_raises_ValueError_witness :
  count ":" "myimg" <> 1
  /\ DockerConnector.upload Fixtures.quiet "7f10" Fixtures.registry "myimg"
       None None (Fixtures.fresh ∅)
     = (Raised (Exn ValueError "not enough values to unpack (expected 2, got 1)" None),
        {| inner := {| world := 1; events := [DockerFromEnv]; existing_repos := ∅ |};
           rlog := [] |}).
Proof.
  assert (Hcount : count ":" "myimg" <> 1) by discriminate.
  split; [exact Hcount |].
  destruct (malformed_local_name_raises_ValueError nat Fixtures.quiet "myimg" Hcount)
    as [_ Hdocker].
  exact (Hdocker "7f10" Fixtures.registry None None (Fixtures.fresh ∅) 1 eq_refl).
Defined.

(** C10 (as stated) fails: behind a Docker daemon that cannot be reached,
    [DockerConnector.upload] of a name without [:] raises the exception of
    [docker.from_env], which is not a [ValueError]. *)
Lemma unreachable_daemon_hides_ValueError :
  count ":" "myimg" <> 1
  /\ exists e,
       fst (DockerConnector.upload Fixtures.unreachable_daemon "7f10"
              Fixtures.registry "myimg" None None (Fixtures.fresh ∅)) = Raised e
       /\ isinstance e ValueError = false.
Proof.
  split; [discriminate |].
  exists Fixtures.daemon_down. split; reflexivity.
Qed.

(** ** DockerConnector *)

Section DockerFacts.
Context {W : Type} (svc : services W).

(** One attempt that gets as far as tagging ends with the removal of the
    alias, whatever [tag], [push], the check of the push records and
    [remove_image] itself answer. *)
Lemma upload_body_cleans_up (self : DockerConnector.t)
    (local_name : string) (upload_name upload_tag : option string)
    (s : state W) (w : W) (name tag registry : string) (others : list string) :
  docker_from_env svc (world s) = (Returned tt, w) ->
  split ":" local_name = [name; tag] ->
  DockerConnector.registry_list self = registry :: others ->
  let path := registry +:+ "/" +:+ default name upload_name in
  let tag' := default tag upload_tag in
  exists mid,
    events (snd (DockerConnector.upload_body svc self
                   (local_name, upload_name, upload_tag) s))
    = (events s ++ DockerFromEnv :: DockerTag local_name path tag' :: mid
         ++ [DockerRemoveImage (path +:+ ":" +:+ tag')])%list
    /\ (mid = []
        \/ mid = [DockerPush path tag' (DockerConnector.username self)
                    (DockerConnector.password self)]).
Proof.
  intros Henv Hsplit Hreg path tag'.
  unfold DockerConnector.upload_body, bind, call. rewrite Henv, Hsplit. simpl.
  rewrite Hreg. simpl. fold path tag'.
  unfold try_finally, bind, call, receive, ret. simpl.
  pose (pushed := [DockerPush path tag' (DockerConnector.username self)
                     (DockerConnector.password self)]).
  destruct (docker_api_tag svc local_name path tag' w) as [[[] | e1] w1]; simpl.
  - exists pushed. split; [| now right].
    destruct (docker_images_push svc path tag' _ _ w1) as [[out | e2] w2]; simpl.
    + destruct (check_docker_stream svc out w2) as [[[] | e3] w3]; simpl;
        destruct (docker_api_remove_image svc _ w3) as [[[] | e4] w4]; simpl;
        now rewrite <- !app_assoc.
    + destruct (docker_api_remove_image svc _ w2) as [[[] | e4] w4]; simpl;
        now rewrite <- !app_assoc.
  - exists []. split; [| now left].
    destruct (docker_api_remove_image svc _ w1) as [[[] | e4] w4]; simpl;
      now rewrite <- !app_assoc.
Qed.

(** An attempt that does not get that far has only asked for the client. *)
Lemma upload_body_stops_early (self : DockerConnector.t)
    (local_name : string) (upload_name upload_tag : option string) (s : state W) :
  (exists e w, docker_from_env svc (world s) = (Raised e, w))
  \/ length (split ":" local_name) <> 2
  \/ DockerConnector.registry_list self = [] ->
  events (snd (DockerConnector.upload_body svc self
                 (local_name, upload_name, upload_tag) s))
  = (events s ++ [DockerFromEnv])%list.
Proof.
  unfold DockerConnector.upload_body, bind, call.
  intros [(e & w & Henv) | [Hlen | Hreg]].
  - now rewrite Henv.
  - destruct (docker_from_env svc (world s)) as [[[] | e] w]; [| reflexivity].
    now rewrite unpack2_raises.
  - destruct (docker_from_env svc (world s)) as [[[] | e] w]; [| reflexivity].
    destruct (split ":" local_name) as [| a [| b [| c rest]]]; try reflexivity.
    simpl. now rewrite Hreg.
Qed.

Lemma aliases_removed_app (log log' : list event) : forall pending,
  DockerConnector.aliases_removed pending log = true ->
  DockerConnector.aliases_removed None log' = true ->
  DockerConnector.aliases_removed pending (log ++ log') = true.
Proof.
  induction log as [| ev log IH]; intros pending Hlog Hlog'.
  - simpl in *. now destruct pending.
  - destruct ev; simpl in *; try (now apply IH).
    + destruct pending; [discriminate | now apply IH].
    + destruct pending as [alias |]; [| now apply IH].
      apply andb_prop in Hlog as [Heq Hrest].
      rewrite Heq. now apply IH.
Qed.

Lemma cleaned_refl (s : state W) : cleaned s s.
Proof. exists []. now rewrite app_nil_r. Qed.

Lemma cleaned_trans (s1 s2 s3 : state W) :
  cleaned s1 s2 -> cleaned s2 s3 -> cleaned s1 s3.
Proof.
  intros (new & Hev & Hok) (new' & Hev' & Hok').
  exists (new ++ new')%list. split.
  - now rewrite Hev', Hev, app_assoc.
  - now apply aliases_removed_app.
Qed.

Lemma upload_body_cleaned (self : DockerConnector.t)
    (args : DockerConnector.upload_args) (s : state W) :
  cleaned s (snd (DockerConnector.upload_body svc self args s)).
Proof.
  destruct args as [[local_name upload_name] upload_tag].
  destruct (docker_from_env svc (world s)) as [[[] | e] w] eqn:Henv.
  - destruct (decide (length (split ":" local_name) = 2)) as [Hlen | Hlen].
    + destruct (split ":" local_name) as [| name [| tag [| c rest]]] eqn:Hsplit;
        try discriminate.
      destruct (DockerConnector.registry_list self) as [| registry others] eqn:Hreg.
      * exists [DockerFromEnv]. split; [| reflexivity].
        apply upload_body_stops_early. now right; right.
      * destruct (upload_body_cleans_up self local_name upload_name upload_tag
                    s w name tag registry others Henv Hsplit Hreg)
          as (mid & Hev & Hmid).
        eexists. split; [exact Hev |].
        destruct Hmid as [-> | ->]; simpl; now rewrite String.eqb_refl.
    + exists [DockerFromEnv]. split; [| reflexivity].
      apply upload_body_stops_early. now right; left.
  - exists [DockerFromEnv]. split; [| reflexivity].
    apply upload_body_stops_early. left. now exists e, w.
Qed.

End DockerFacts.

(** C6.  An attempt of [DockerConnector.upload] that reaches the tagging
    (the client is there, [local_name] parses as [name:tag] and there is a
    first registry) ends, on every path, with [remove_image] of the alias
    [registries[0]/uploadName:uploadTag]: it is the last call made, after
    the tag and, if the tag went through, the push.  Over the whole
    decorated call, retries included, every alias tagged has been the
    argument of a [remove_image] before the next tag and before the call
    ends. *)
Theorem destination_alias_always_removed :
  forall (W : Type) (svc : services W) (self : DockerConnector.t)
         (local_name : string) (upload_name upload_tag : option string),
    (forall (s : state W) (w : W) (name tag registry : string)
            (others : list string),
       docker_from_env svc (world s) = (Returned tt, w) ->
       split ":" local_name = [name; tag] ->
       DockerConnector.registry_list self = registry :: others ->
       let uname := default name upload_name in
       let utag := default tag upload_tag in
       exists mid,
         events (snd (DockerConnector.upload_body svc self
                        (local_name, upload_name, upload_tag) s))
         = (events s
              ++ DockerFromEnv
                 :: DockerTag local_name (registry +:+ "/" +:+ uname) utag
                 :: mid
              ++ [DockerRemoveImage (DockerConnector.upload_url registry uname utag)])%list
         /\ (mid = []
             \/ mid = [DockerPush (registry +:+ "/" +:+ uname) utag
                         (DockerConnector.username self)
                         (DockerConnector.password self)]))
    /\ (forall (addr : string) (s : rstate (state W)),
          DockerConnector.aliases_removed None
            (new_events (inner s)
               (inner (snd (DockerConnector.upload svc addr self local_name
                              upload_name upload_tag s))))
          = true).
Proof.
  intros W svc self local_name upload_name upload_tag. split.
  - intros s w name tag registry others. apply upload_body_cleans_up.
  - intros addr s.
    destruct (retry_loop_respects DockerConnector.upload_retry
                (DockerConnector.upload_func svc addr self)
                (local_name, upload_name, upload_tag)
                (cleaned (W := W)) cleaned_refl cleaned_trans
                (upload_body_cleaned svc self (local_name, upload_name, upload_tag))
                (Z.to_nat (remote_retry.max_retries DockerConnector.upload_retry)) s)
      as (new & Hev & Hok).
    unfold new_events, DockerConnector.upload, remote_retry.__call__.
    rewrite Hev, drop_app_length. exact Hok.
Qed.

(** An upload of [myimg:1.0] in which every call succeeds. *)
Lemma destination_alias_always_removed_witness :
  events (snd (DockerConnector.upload_body Fixtures.quiet Fixtures.registry
                 ("myimg:1.0", None, None) (Fixtures.start ∅)))
  = [DockerFromEnv;
     DockerTag "myimg:1.0" "reg.example.com/myimg" "1.0";
     DockerPush "reg.example.com/myimg" "1.0" "user" "secret";
     DockerRemoveImage "reg.example.com/myimg:1.0"].
Proof.
  destruct (destination_alias_always_removed nat Fixtures.quiet Fixtures.registry
              "myimg:1.0" None None) as [Hattempt _].
  destruct (Hattempt (Fixtures.start ∅) 1 "myimg" "1.0" "reg.example.com" []
              eq_refl eq_refl eq_refl) as (mid & Hev & Hmid).
  reflexivity.
Defined.

(** ** Relations that computations respect *)

Section Respects.
Context {St : Type} (R : St -> St -> Prop).
Hypothesis R_refl : forall s, R s s.
Hypothesis R_trans : forall s1 s2 s3, R s1 s2 -> R s2 s3 -> R s1 s3.

Lemma respects_ret {A} (a : A) : respects R (ret a).
Proof. intros s. apply R_refl. Qed.

Lemma respects_raise {A} (e : exn) : respects R (raise (A := A) e).
Proof. intros s. apply R_refl. Qed.

Lemma respects_bind {A B} (m : M St A) (k : A -> M St B) :
  respects R m -> (forall a, respects R (k a)) -> respects R (bind m k).
Proof.
  intros Hm Hk s. unfold bind. specialize (Hm s).
  destruct (m s) as [[a | e] s1]; simpl in *; [| exact Hm].
  eapply R_trans; [exact Hm | apply Hk].
Qed.

Lemma respects_try_except {A} (body handler : M St A) cls :
  respects R body -> respects R handler -> respects R (try_except body cls handler).
Proof.
  intros Hbody Hhandler s. unfold try_except. specialize (Hbody s).
  destruct (body s) as [[a | e] s1]; simpl in *; [exact Hbody |].
  destruct (isinstance e cls); [| exact Hbody].
  eapply R_trans; [exact Hbody | apply Hhandler].
Qed.

Lemma respects_try_finally {A} (body : M St A) (fin : M St unit) :
  respects R body -> respects R fin -> respects R (try_finally body fin).
Proof.
  intros Hbody Hfin s. unfold try_finally. specialize (Hbody s).
  destruct (body s) as [[a | e] s1]; simpl in *; specialize (Hfin s1);
    destruct (fin s1) as [[[] | e'] s2]; simpl in *;
    eapply R_trans; eauto.
Qed.

Lemma respects_retry {Args A} (self : remote_retry.t) (func : pyfunc St Args A)
    (args : Args) (s : rstate St) :
  respects R (fn_call func args) ->
  R (inner s) (inner (snd (remote_retry.__call__ self func args s))).
Proof.
  intros Hfunc. unfold remote_retry.__call__.
  now apply retry_loop_respects.
Qed.

End Respects.

Section EcrFacts.
Context {W : Type} (svc : services W).

Lemma grows_by_refl P (s : state W) : grows_by P s s.
Proof. split; [reflexivity |]. exists []. now rewrite app_nil_r. Qed.

Lemma grows_by_trans P (s1 s2 s3 : state W) :
  grows_by P s1 s2 -> grows_by P s2 s3 -> grows_by P s1 s3.
Proof.
  intros (Hcat & new & Hev & Hnew) (Hcat' & new' & Hev' & Hnew').
  split; [congruence |]. exists (new ++ new')%list. split.
  - now rewrite Hev', Hev, app_assoc.
  - now apply Forall_app.
Qed.

Lemma respects_call {A} P (ev : event) (f : W -> outcome A * W) :
  P ev -> respects (grows_by P) (call ev f).
Proof.
  intros Hev s. unfold call. destruct (f (world s)) as [r w]. simpl.
  split; [reflexivity |]. exists [ev]. split; [reflexivity |].
  now apply Forall_singleton.
Qed.

Lemma respects_receive {A} P (f : W -> outcome A * W) :
  respects (grows_by P) (receive f).
Proof.
  intros s. unfold receive. destruct (f (world s)) as [r w]. simpl.
  split; [reflexivity |]. exists []. split; [now rewrite app_nil_r | constructor].
Qed.

Create HintDb windlass.
Local Hint Resolve grows_by_refl grows_by_trans : windlass.

Lemma docker_upload_body_not_create (self : DockerConnector.t) args :
  respects (grows_by not_create) (DockerConnector.upload_body svc self args).
Proof.
  destruct args as [[local_name upload_name] upload_tag].
  unfold DockerConnector.upload_body.
  apply respects_bind; eauto with windlass.
  { now apply respects_call. }
  intros _. apply respects_bind; eauto with windlass.
  { unfold unpack2. destruct (split ":" local_name) as [| a [| b [| c r]]];
      first [apply respects_ret | apply respects_raise]; eauto with windlass. }
  intros [name tag]. apply respects_bind; eauto with windlass.
  { unfold first_item. destruct (DockerConnector.registry_list self);
      first [apply respects_ret | apply respects_raise]; eauto with windlass. }
  intros registry. apply respects_try_finally; eauto with windlass.
  - apply respects_bind; eauto with windlass.
    { now apply respects_call. }
    intros _. apply respects_bind; eauto with windlass.
    { now apply respects_call. }
    intros out. apply respects_bind; eauto with windlass.
    { apply respects_receive. }
    intros _. apply respects_ret; eauto with windlass.
  - now apply respects_call.
Qed.

Lemma create_repo_body_creates_only (self : ECRConnector.t) name u :
  respects (grows_by (creates_only name))
    (ECRConnector._create_repo_body svc self name u).
Proof.
  unfold ECRConnector._create_repo_body.
  apply respects_bind; eauto with windlass.
  - apply respects_try_except; eauto with windlass.
    + apply respects_bind; eauto with windlass.
      * apply respects_call. intros n [= ->]. reflexivity.
      * intros _. apply respects_ret; eauto with windlass.
    + apply respects_ret; eauto with windlass.
  - intros _. unfold ECRConnector._set_repo_policy.
    destruct (ECRConnector.new_repo_policy self) as [p |];
      [destruct (String.eqb p "") |];
      first [apply respects_ret; eauto with windlass
            | now apply respects_call].
Qed.

Lemma safe_refl (s : state W) : safe s s.
Proof.
  split; [reflexivity |]. exists []. split; [now rewrite app_nil_r |].
  intros n Hin. now apply elem_of_nil in Hin.
Qed.

Lemma safe_trans (s1 s2 s3 : state W) :
  safe s1 s2 -> safe s2 s3 -> safe s1 s3.
Proof.
  intros (Hcat & new & Hev & Hnew) (Hcat' & new' & Hev' & Hnew').
  split; [set_solver |]. exists (new ++ new')%list. split.
  - now rewrite Hev', Hev, app_assoc.
  - intros n Hin. apply elem_of_app in Hin as [Hin | Hin].
    + now apply Hnew.
    + specialize (Hnew' n Hin). set_solver.
Qed.

Lemma grows_by_not_create_safe (s s' : state W) :
  grows_by not_create s s' -> safe s s'.
Proof.
  intros (Hcat & new & Hev & Hnew). split; [now rewrite Hcat |].
  exists new. split; [exact Hev |]. intros n Hin.
  rewrite Forall_forall in Hnew. now destruct (Hnew _ Hin n).
Qed.

Lemma docker_upload_safe addr (self : DockerConnector.t) local_name
    upload_name upload_tag (s : rstate (state W)) :
  grows_by not_create (inner s)
    (inner (snd (DockerConnector.upload svc addr self local_name
                   upload_name upload_tag s))).
Proof.
  unfold DockerConnector.upload.
  apply respects_retry; eauto with windlass.
  apply docker_upload_body_not_create.
Qed.

Lemma create_repo_if_new_safe grb addr (self : ECRConnector.t) name
    (s : rstate (state W)) :
  safe (inner s)
    (inner (snd (ECRConnector._create_repo_if_new svc grb addr self name s))).
Proof.
  unfold ECRConnector._create_repo_if_new.
  destruct (decide (name ∈ existing_repos (inner s))) as [Hin | Hout].
  - apply safe_refl.
  - pose proof (respects_retry (grows_by (creates_only name))
                  (grows_by_refl _) (grows_by_trans _)
                  (ECRConnector._create_repo_retry grb)
                  (ECRConnector._create_repo_func svc addr self name) tt s
                  (create_repo_body_creates_only self name tt))
      as (Hcat & new & Hev & Hnew).
    unfold bind.
    destruct (remote_retry.__call__ _ _ tt s) as [[[] | e] s1];
      unfold remote_retry.lift, ECRConnector.add_existing_repo, safe;
      cbn [snd inner existing_repos events] in *.
    + split; [rewrite Hcat; apply union_subseteq_r |].
      exists new. split; [exact Hev |].
      intros n Hin. rewrite Forall_forall in Hnew.
      now rewrite (Hnew _ Hin n eq_refl).
    + split; [now rewrite Hcat |]. exists new. split; [exact Hev |].
      intros n Hin. rewrite Forall_forall in Hnew.
      now rewrite (Hnew _ Hin n eq_refl).
Qed.

Lemma ecr_upload_unfolds grb addr addr' (self : ECRConnector.t) local_name
    upload_name upload_tag d (s : rstate (state W)) :
  ECRConnector.destination self local_name upload_name = Some d ->
  ECRConnector.upload svc grb addr addr' self local_name upload_name upload_tag s
  = (ECRConnector._create_repo_if_new svc grb addr self d ;;;
     DockerConnector.upload svc addr' (ECRConnector.base self) local_name
       (Some d) upload_tag) s.
Proof.
  unfold ECRConnector.destination, ECRConnector.upload.
  destruct (split ":" local_name) as [| name [| tag [| c rest]]]; try discriminate.
  destruct (ECRConnector.path_prefixes self) as [| prefix others];
    [discriminate |].
  now intros [= <-].
Qed.

Lemma ecr_upload_safe grb addr addr' (self : ECRConnector.t) local_name
    upload_name upload_tag (s : rstate (state W)) :
  safe (inner s)
    (inner (snd (ECRConnector.upload svc grb addr addr' self local_name
                   upload_name upload_tag s))).
Proof.
  destruct (ECRConnector.destination self local_name upload_name) as [d |] eqn:Hd.
  - rewrite (ecr_upload_unfolds _ _ _ _ _ _ _ d) by exact Hd.
    unfold bind.
    pose proof (create_repo_if_new_safe grb addr self d s) as Hsafe.
    destruct (ECRConnector._create_repo_if_new svc grb addr self d s)
      as [[[] | e] s1]; simpl in *; [| exact Hsafe].
    eapply safe_trans; [exact Hsafe |].
    apply grows_by_not_create_safe, docker_upload_safe.
  - unfold ECRConnector.destination in Hd. unfold ECRConnector.upload, bind.
    destruct (split ":" local_name) as [| name [| tag [| c rest]]];
      try apply safe_refl.
    destruct (ECRConnector.path_prefixes self) as [| prefix others];
      [apply safe_refl | discriminate].
Qed.

Lemma publish_safe grb addr addr' (self : ECRConnector.t) requests :
  forall s : rstate (state W),
    safe (inner s)
      (inner (ECRConnector.publish svc grb addr addr' self requests s)).
Proof.
  induction requests as [| [[local_name upload_name] upload_tag] rest IH];
    intros s; simpl.
  - apply safe_refl.
  - eapply safe_trans; [apply ecr_upload_safe | apply IH].
Qed.

Lemma safe_new_events (s s' : state W) n :
  safe s s' -> EcrCreateRepository n ∈ new_events s s' -> n ∉ existing_repos s.
Proof.
  intros (_ & new & Hev & Hnew). unfold new_events.
  rewrite Hev, drop_app_length. apply Hnew.
Qed.


Lemma create_repo_body_first_event (self : ECRConnector.t) name (s : state W) :
  exists more,
    events (snd (ECRConnector._create_repo_body svc self name tt s))
    = (events s ++ EcrCreateRepository name :: more)%list.
Proof.
  unfold ECRConnector._create_repo_body, bind, try_except, call, ret.
  destruct (ecr_create_repository svc name (world s)) as [[uri | e] w]; simpl.
  2: destruct (isinstance e _); simpl; [| now exists []].
  all: unfold ECRConnector._set_repo_policy;
    destruct (ECRConnector.new_repo_policy self) as [p |];
    [destruct (String.eqb p "") |]; unfold ret, call; simpl;
    try (now exists []).
  all: destruct (ecr_set_repository_policy svc name p w) as [r w']; simpl;
    exists [EcrSetRepositoryPolicy name p]; now rewrite <- app_assoc.
Qed.

Lemma create_repo_if_new_attempts grb addr (self : ECRConnector.t) name
    (s : rstate (state W)) :
  name ∉ existing_repos (inner s) ->
  exists rest,
    events (inner (snd (ECRConnector._create_repo_if_new svc grb addr self name s)))
    = (events (inner s) ++ EcrCreateRepository name :: rest)%list.
Proof.
  intros Hout. unfold ECRConnector._create_repo_if_new.
  destruct (decide (name ∈ existing_repos (inner s))) as [Hin | _]; [contradiction |].
  assert (Hloop : exists rest,
            events (inner (snd (remote_retry.__call__
                                  (ECRConnector._create_repo_retry grb)
                                  (ECRConnector._create_repo_func svc addr self name)
                                  tt s)))
            = (events (inner s) ++ EcrCreateRepository name :: rest)%list).
  { unfold remote_retry.__call__.
    change (Z.to_nat (remote_retry.max_retries (ECRConnector._create_repo_retry grb)))
      with 3.
    generalize 2 as n. intros n.
    cbn [remote_retry.retry_loop fn_call ECRConnector._create_repo_func].
    destruct (create_repo_body_first_event self name (inner s)) as [more Hmore].
    destruct (ECRConnector._create_repo_body svc self name tt (inner s))
      as [[[] | e] st]; simpl in Hmore |- *; [now exists more |].
    destruct (isinstance e Exception); [| now exists more].
    destruct (negb _); [now exists more |].
    match goal with
    | |- context [remote_retry.retry_loop ?rt ?func ?args ?m ?s0] =>
        destruct (retry_loop_respects rt func args
                    (grows_by (creates_only name))
                    (grows_by_refl _) (grows_by_trans _)
                    (create_repo_body_creates_only self name tt) m s0)
          as (_ & new & Hev & _)
    end.
    simpl in Hev. exists (more ++ new)%list.
    rewrite Hev, Hmore. now rewrite <- app_assoc. }
  destruct Hloop as [rest Hrest]. exists rest. unfold bind.
  destruct (remote_retry.__call__ _ _ tt s) as [[[] | e] s1]; exact Hrest.
Qed.

Lemma create_repo_body_tolerates (self : ECRConnector.t) name (s : state W)
    created w1 :
  ecr_create_repository svc name (world s) = (created, w1) ->
  ECRConnector.tolerated created ->
  ECRConnector._create_repo_body svc self name tt s
  = ECRConnector._set_repo_policy svc self name
      {| world := w1;
         events := events s ++ [EcrCreateRepository name];
         existing_repos := existing_repos s |}.
Proof.
  intros Hcreate Htol.
  unfold ECRConnector._create_repo_body, bind, try_except, call, ret.
  rewrite Hcreate. destruct created as [uri | e]; simpl in *; [reflexivity |].
  now rewrite Htol.
Qed.

Lemma listed_names_accumulate (pages : list (list string)) :
  forall (acc : gset string) (name : string),
    name ∈ acc \/ (exists page, page ∈ pages /\ name ∈ page) ->
    name ∈ fold_left (fun acc page => acc ∪ list_to_set page) pages acc.
Proof.
  induction pages as [| page pages IH]; intros acc name Hname; simpl.
  - destruct Hname as [Hacc | (page & Hpage & _)]; [exact Hacc |].
    now apply elem_of_nil in Hpage.
  - apply IH. destruct Hname as [Hacc | (page' & Hpage & Hin)].
    + left. apply elem_of_union. now left.
    + apply elem_of_cons in Hpage as [-> | Hpage].
      * left. apply elem_of_union. right. now apply elem_of_list_to_set.
      * right. now exists page'.
Qed.

Lemma init_existing_repos_lists (s : state W) pages w name page :
  ecr_describe_repositories svc (world s) = (Returned pages, w) ->
  page ∈ pages -> name ∈ page ->
  name ∈ existing_repos (snd (ECRConnector.init_existing_repos svc s)).
Proof.
  intros Hlist Hpage Hname.
  unfold ECRConnector.init_existing_repos, ECRConnector._list_existing_repos,
    ECRConnector.set_existing_repos, bind, call, ret.
  rewrite Hlist. cbn [snd existing_repos].
  apply listed_names_accumulate. right. now exists page.
Qed.

End EcrFacts.

(** C4.  [ECRConnector] never calls [create_repository] for a name that
    is in its catalog: not in one upload whose destination is there (that
    upload is the plain Docker upload and creates nothing at all), and
    not, over any series of uploads, for any name that was in the catalog
    at the start, in particular a name that the listing made at
    construction returned on one of its pages.  For an
    absent name [_create_repo_if_new] begins with [create_repository];
    when that call returns or raises [RepositoryAlreadyExistsException]
    the configured policy is applied next with [set_repository_policy],
    and when that returns the name joins the catalog without any
    back-off; with no policy configured the name joins the catalog
    directly. *)
Theorem catalogued_repositories_are_not_created :
  forall (W : Type) (svc : services W) (grb : N) (addr addr' : string)
         (self : ECRConnector.t),
    (forall (requests : list DockerConnector.upload_args)
            (s : rstate (state W)) (name : string),
       name ∈ existing_repos (inner s) ->
       EcrCreateRepository name
         ∉ new_events (inner s)
             (inner (ECRConnector.publish svc grb addr addr' self requests s)))
    /\ (forall (s0 : state W) (pages : list (list string)) (w : W)
               (page : list string) (name : string)
               (requests : list DockerConnector.upload_args),
          ecr_describe_repositories svc (world s0) = (Returned pages, w) ->
          page ∈ pages ->
          name ∈ page ->
          let s := {| inner := snd (ECRConnector.init_existing_repos svc s0);
                      rlog := [] |} in
          EcrCreateRepository name
            ∉ new_events (inner s)
                (inner (ECRConnector.publish svc grb addr addr' self requests s)))
    /\ (forall (local_name : string) (upload_name upload_tag : option string)
               (s : rstate (state W)) (d : string),
          ECRConnector.destination self local_name upload_name = Some d ->
          ECRConnector.upload svc grb addr addr' self local_name
            upload_name upload_tag s
          = (ECRConnector._create_repo_if_new svc grb addr self d ;;;
             DockerConnector.upload svc addr' (ECRConnector.base self)
               local_name (Some d) upload_tag) s
          /\ (d ∈ existing_repos (inner s) ->
              forall n,
                EcrCreateRepository n
                  ∉ new_events (inner s)
                      (inner (snd (ECRConnector.upload svc grb addr addr' self
                                     local_name upload_name upload_tag s)))))
    /\ (forall (image_name : string) (s : rstate (state W)),
          image_name ∉ existing_repos (inner s) ->
          let r := ECRConnector._create_repo_if_new svc grb addr self image_name s in
          (exists rest,
             events (inner (snd r))
             = (events (inner s) ++ EcrCreateRepository image_name :: rest)%list)
          /\ (forall (created : outcome string) (w1 : W),
                ecr_create_repository svc image_name (world (inner s))
                = (created, w1) ->
                ECRConnector.tolerated created ->
                (forall (policy : string) (w2 : W),
                   ECRConnector.new_repo_policy self = Some policy ->
                   policy <> "" ->
                   ecr_set_repository_policy svc image_name policy w1
                   = (Returned tt, w2) ->
                   r = (Returned tt,
                        {| inner :=
                             {| world := w2;
                                events :=
                                  events (inner s)
                                    ++ [EcrCreateRepository image_name;
                                        EcrSetRepositoryPolicy image_name policy];
                                existing_repos :=
                                  {[image_name]} ∪ existing_repos (inner s) |};
                           rlog := rlog s |}))
                /\ (ECRConnector.new_repo_policy self = None
                    \/ ECRConnector.new_repo_policy self = Some "" ->
                    r = (Returned tt,
                         {| inner :=
                              {| world := w1;
                                 events :=
                                   events (inner s)
                                     ++ [EcrCreateRepository image_name];
                                 existing_repos :=
                                   {[image_name]} ∪ existing_repos (inner s) |};
                            rlog := rlog s |})))).
Proof.
  intros W svc grb addr addr' self. split; [| split; [| split]].
  - intros requests s name Hin Hcreated.
    now apply (safe_new_events _ _ _ (publish_safe svc grb addr addr' self requests s))
      in Hcreated.
  - intros s0 pages w page name requests Hlist Hpage Hname s Hcreated.
    apply (safe_new_events _ _ _ (publish_safe svc grb addr addr' self requests s))
      in Hcreated.
    apply Hcreated. subst s. cbn [inner].
    now apply (init_existing_repos_lists svc s0 pages w name page).
  - intros local_name upload_name upload_tag s d Hd.
    split; [now apply ecr_upload_unfolds |].
    intros Hin n. rewrite (ecr_upload_unfolds svc _ _ _ _ _ _ _ d) by exact Hd.
    unfold bind, ECRConnector._create_repo_if_new.
    destruct (decide (d ∈ existing_repos (inner s))) as [_ | Hout]; [| contradiction].
    destruct (docker_upload_safe svc addr' (ECRConnector.base self) local_name
                (Some d) upload_tag s) as (_ & new & Hev & Hnew).
    unfold new_events. rewrite Hev, drop_app_length.
    intros Hcreated. rewrite Forall_forall in Hnew.
    now destruct (Hnew _ Hcreated n).
  - intros image_name s Hout r. split.
    + now apply create_repo_if_new_attempts.
    + intros created w1 Hcreate Htol.
      pose proof (create_repo_body_tolerates svc self image_name (inner s)
                    created w1 Hcreate Htol) as Hbody.
      assert (Hr : forall st,
                 ECRConnector._set_repo_policy svc self image_name
                   {| world := w1;
                      events := events (inner s) ++ [EcrCreateRepository image_name];
                      existing_repos := existing_repos (inner s) |}
                 = (Returned tt, st) ->
                 r = (Returned tt,
                      {| inner := {| world := world st;
                                     events := events st;
                                     existing_repos :=
                                       {[image_name]} ∪ existing_repos st |};
                         rlog := rlog s |})).
      { intros st Hpolicy. subst r. unfold ECRConnector._create_repo_if_new.
        destruct (decide (image_name ∈ existing_repos (inner s))); [contradiction |].
        unfold bind, remote_retry.__call__.
        change (Z.to_nat (remote_retry.max_retries
                            (ECRConnector._create_repo_retry grb))) with 3.
        rewrite (retry_loop_returns _ _ _ 2 s tt st); [reflexivity |].
        simpl fn_call. now rewrite Hbody. }
      unfold ECRConnector._set_repo_policy in Hr. split.
      * intros policy w2 Hpolicy Hne Hset. rewrite Hpolicy in Hr.
        apply String.eqb_neq in Hne. rewrite Hne in Hr.
        unfold call in Hr. simpl in Hr. rewrite Hset in Hr.
        rewrite (Hr _ eq_refl). simpl. now rewrite <- app_assoc.
      * intros [Hnone | Hempty].
        -- rewrite Hnone in Hr. now rewrite (Hr _ eq_refl).
        -- rewrite Hempty in Hr. now rewrite (Hr _ eq_refl).
Qed.

(** Two uploads to a catalogued repository, and the creation of a
    repository that a concurrent publisher has just created. *)
Lemma catalogued_repositories_are_not_created_witness :
  ("team/foo" ∈ existing_repos (inner (Fixtures.fresh {["team/foo"]}))
   /\ EcrCreateRepository "team/foo"
        ∉ new_events (inner (Fixtures.fresh {["team/foo"]}))
            (inner (ECRConnector.publish Fixtures.quiet 5 "7f11" "7f10"
                      Fixtures.managed
                      [("foo:1", None, None); ("foo:2", None, None)]
                      (Fixtures.fresh {["team/foo"]}))))
  /\ (("team/foo" ∉ existing_repos (inner (Fixtures.fresh ∅)))
      /\ ECRConnector._create_repo_if_new Fixtures.raced 5 "7f11"
           Fixtures.managed "team/foo" (Fixtures.fresh ∅)
         = (Returned tt,
            {| inner :=
                 {| world := 2;
                    events := [EcrCreateRepository "team/foo";
                               EcrSetRepositoryPolicy "team/foo" "{policy}"];
                    existing_repos := {["team/foo"]} ∪ ∅ |};
               rlog := [] |})).
Proof.
  assert (Hin : "team/foo" ∈ existing_repos (inner (Fixtures.fresh {["team/foo"]})))
    by (apply elem_of_singleton; reflexivity).
  assert (Hout : "team/foo" ∉ existing_repos (inner (Fixtures.fresh ∅)))
    by apply not_elem_of_empty.
  split; split; [exact Hin | | exact Hout |].
  - destruct (catalogued_repositories_are_not_created nat Fixtures.quiet 5
                "7f11" "7f10" Fixtures.managed) as (Hpublish & _ & _ & _).
    now apply Hpublish.
  - destruct (catalogued_repositories_are_not_created nat Fixtures.raced 5
                "7f11" "7f10" Fixtures.managed) as (_ & _ & _ & Hnew).
    destruct (Hnew "team/foo" (Fixtures.fresh ∅) Hout) as [_ Hpolicy].
    destruct (Hpolicy (Raised (Exn ecr_exceptions.RepositoryAlreadyExistsException
                                 "An error occurred (RepositoryAlreadyExistsException)"
                                 None))
                1 eq_refl eq_refl) as [Hconfigured _].
    apply (Hconfigured "{policy}" 2 eq_refl); [discriminate | reflexivity].
Defined.

(** ** The scenarios of the specification, evaluated *)

(** An operation that fails twice and then returns ["ok"], under a
    decorator asked for three attempts and a back-off of 0: the result is
    ["ok"] after two logged retries.  A back-off of 0 is replaced by
    [global_retry_backoff]. *)
Example scenario_retry_twice_then_ok :
  let self := remote_retry.__init__ global_retry_backoff (Some 3%Z) (Some 0%N) None in
  let r := remote_retry.__call__ self (Fixtures.flaky 2) tt
             {| inner := 0; rlog := [] |} in
  fst r = Returned "ok"
  /\ length (rlog (snd r)) = 4
  /\ remote_retry.sleeps (rlog (snd r)) = 2
  /\ remote_retry.retry_backoff self = 5%N.
Proof. repeat split. Qed.

(** Pushing [myimg:1.0] to the registry [reg.example.com]. *)
Example scenario_docker_upload :
  let r := DockerConnector.upload Fixtures.quiet "7f10" Fixtures.registry
             "myimg:1.0" None None (Fixtures.fresh ∅) in
  fst r = Returned "reg.example.com/myimg:1.0"
  /\ events (inner (snd r))
     = [DockerFromEnv;
        DockerTag "myimg:1.0" "reg.example.com/myimg" "1.0";
        DockerPush "reg.example.com/myimg" "1.0" "user" "secret";
        DockerRemoveImage "reg.example.com/myimg:1.0"]
  /\ rlog (snd r) = [].
Proof. repeat split. Qed.

(** A managed registry with an empty catalog and the destination [foo]. *)
Example scenario_ecr_creates_repository :
  let self := {| ECRConnector.path_prefixes :=
                   ECRConnector.init_path_prefixes ECRConnector.NoPrefixes;
                 ECRConnector.new_repo_policy := Some "{policy}";
                 ECRConnector.base := Fixtures.registry |} in
  let r := ECRConnector.upload Fixtures.quiet 5 "7f11" "7f10" self
             "foo:1" None None (Fixtures.fresh ∅) in
  fst r = Returned "reg.example.com/foo:1"
  /\ events (inner (snd r))
     = [EcrCreateRepository "foo";
        EcrSetRepositoryPolicy "foo" "{policy}";
        DockerFromEnv;
        DockerTag "foo:1" "reg.example.com/foo" "1";
        DockerPush "reg.example.com/foo" "1" "user" "secret";
        DockerRemoveImage "reg.example.com/foo:1"]
  /\ elements (existing_repos (inner (snd r))) = ["foo"].
Proof. repeat split. Qed.

(** A staged upload when the final location answers 404. *)
Example scenario_two_phase_upload :
  let r := HTTPBasicAuthConnector2Phase.upload Fixtures.quiet Fixtures.staged
             "a.tar" [] [] (Fixtures.start ∅) in
  fst r = Returned "https://host/repo/staging/a.tar"
  /\ events (snd r)
     = [HttpHead "https://host/repo/a.tar";
        HttpPut "https://host/repo/staging/a.tar" [] "user" "secret"].
Proof. repeat split. Qed.

(** A PUT answered with 500. *)
Example scenario_put_500 :
  fst (HTTPBasicAuthConnector.upload (Fixtures.answering 500 404 [])
         Fixtures.artifactory "a.tar" [] [] (Fixtures.start ∅))
  = Raised (Exn api.RetryableFailure
              "Failed (status: 500) to upload https://host/repo/a.tar" None).
Proof. reflexivity. Qed.

(** A channel used before its [setup_*] call. *)
Example scenario_unconfigured_channel :
  fst (AWSRemote.upload_signature Fixtures.quiet Fixtures.aws "docker" "a.sig"
         [] (Fixtures.start ∅))
  = Raised (Exn api.NoValidRemoteError
              "No AWSRemote(region=eu-west-1, key_id=AKIA) connector configured for signatures"
              None).
Proof. reflexivity. Qed.

(** [os.path.join] drops the base when the name is absolute and adds no
    slash after a base that ends with one. *)
Example os_path_join_cases :
  os_path_join "https://host/repo" "a.tar" = "https://host/repo/a.tar"
  /\ os_path_join "https://host/repo/" "a.tar" = "https://host/repo/a.tar"
  /\ os_path_join "https://host/repo" "/a.tar" = "/a.tar"
  /\ os_path_join "" "a.tar" = "a.tar".
Proof. repeat split. Qed.

(** * Further properties *)

(** ** The retry decorator, in general *)

Section RetryOutcome.
Context {St Args A : Type}.
Variables (self : remote_retry.t) (func : pyfunc St Args A) (args : Args).

Import remote_retry.

(** An attempt that does not fail retryably ends the loop with its own
    outcome. *)
Lemma retry_loop_decides n s :
  fails_retryably self func args (inner s) = false ->
  retry_loop self func args (S n) s
  = (fst (fn_call func args (inner s)),
     {| inner := snd (fn_call func args (inner s)); rlog := rlog s |}).
Proof.
  unfold fails_retryably, retryable. simpl.
  destruct (fn_call func args (inner s)) as [[v | e] st]; simpl; [reflexivity |].
  intros Hnot. destruct (isinstance e Exception); [| reflexivity].
  simpl in Hnot. now rewrite Hnot.
Qed.

(** The loop ends at the first attempt that does not fail retryably, or
    after [n] retryable failures. *)
Lemma retry_loop_outcome n : forall s,
  exists k,
    k <= n
    /\ (forall i, i < k ->
          fails_retryably self func args (state_after func args i (inner s)) = true)
    /\ ((k = n
         /\ retry_loop self func args n s
            = (Raised (Exn Exception (exhausted_message self func) None),
               {| inner := state_after func args n (inner s);
                  rlog := rlog s ++ mjoin (replicate n (backoff self func)) |}))
        \/ (k < n
            /\ fails_retryably self func args
                 (state_after func args k (inner s)) = false
            /\ retry_loop self func args n s
               = (fst (fn_call func args (state_after func args k (inner s))),
                  {| inner := state_after func args (S k) (inner s);
                     rlog := rlog s ++ mjoin (replicate k (backoff self func)) |}))).
Proof.
  induction n as [| n IH]; intros s.
  - exists 0. split; [lia |]. split; [intros i Hi; lia |]. left.
    split; [reflexivity |]. simpl. rewrite app_nil_r. now destruct s.
  - destruct (fails_retryably self func args (inner s)) eqn:Hfirst.
    + rewrite retry_loop_retries by exact Hfirst.
      destruct (IH {| inner := snd (fn_call func args (inner s));
                      rlog := rlog s ++ backoff self func |})
        as (k & Hk & Hfail & Hend).
      exists (S k). split; [lia |]. split.
      { intros [| i] Hi; [exact Hfirst | apply Hfail; lia]. }
      cbn [inner rlog] in Hend.
      destruct Hend as [[-> Hend] | (Hlt & Hdec & Hend)].
      * left. split; [reflexivity |]. rewrite Hend. simpl.
        now rewrite <- app_assoc.
      * right. split; [lia |]. split; [exact Hdec |]. rewrite Hend. simpl.
        now rewrite <- app_assoc.
    + exists 0. split; [lia |]. split; [intros i Hi; lia |]. right.
      split; [lia |]. split; [exact Hfirst |].
      rewrite retry_loop_decides by exact Hfirst. simpl.
      now rewrite app_nil_r.
Qed.

End RetryOutcome.

(** X1.  Every decorated call ends in one of two ways, fixed by the first
    attempt that does not raise a retryable failure.  If there is such an
    attempt among the first [max_retries], say after [k] retryable
    failures, the call ends with the outcome of that attempt, value or
    exception, after exactly [k] back-offs.  Otherwise it raises the
    "maximum number of retries" error after [max_retries] attempts and as
    many back-offs.  In both cases it has slept at most [max_retries]
    times. *)
Theorem retry_ends_at_first_decisive_attempt :
  forall (St Args A : Type) (self : remote_retry.t) (func : pyfunc St Args A)
         (args : Args) (s : rstate St),
    let n := Z.to_nat (remote_retry.max_retries self) in
    let r := remote_retry.__call__ self func args s in
    (exists k,
       k <= n
       /\ (forall i, i < k ->
             remote_retry.fails_retryably self func args
               (remote_retry.state_after func args i (inner s)) = true)
       /\ ((k = n
            /\ r = (Raised (Exn Exception (remote_retry.exhausted_message self func) None),
                    {| inner := remote_retry.state_after func args n (inner s);
                       rlog := rlog s
                                 ++ mjoin (replicate n (remote_retry.backoff self func)) |}))
           \/ (k < n
               /\ remote_retry.fails_retryably self func args
                    (remote_retry.state_after func args k (inner s)) = false
               /\ r = (fst (fn_call func args
                             (remote_retry.state_after func args k (inner s))),
                       {| inner := remote_retry.state_after func args (S k) (inner s);
                          rlog := rlog s
                                    ++ mjoin (replicate k (remote_retry.backoff self func)) |}))))
    /\ remote_retry.sleeps (rlog (snd r)) <= remote_retry.sleeps (rlog s) + n.
Proof.
  intros St Args A self func args s n r.
  destruct (retry_loop_outcome self func args n s) as (k & Hk & Hfail & Hend).
  change (remote_retry.retry_loop self func args n s) with r in Hend.
  split.
  - exists k. split; [exact Hk |]. split; [exact Hfail | exact Hend].
  - destruct Hend as [[_ ->] | (_ & _ & ->)]; cbn [snd rlog];
      rewrite sleeps_app, sleeps_backoffs; lia.
Qed.

(** X2.  An exception that is not an instance of [Exception] (a
    [KeyboardInterrupt], say) is never retried, even when its class is
    listed in [retry_on]: the [except Exception] clause does not catch it. *)
Theorem non_exception_is_never_retried :
  forall (St Args A : Type) (self : remote_retry.t) (func : pyfunc St Args A)
         (args : Args) (s : rstate St) (e : exn) (st : St),
    (1 <= remote_retry.max_retries self)%Z ->
    fn_call func args (inner s) = (Raised e, st) ->
    isinstance e Exception = false ->
    remote_retry.__call__ self func args s
    = (Raised e, {| inner := st; rlog := rlog s |}).
Proof.
  intros St Args A self func args s e st Hmax Hcall Hbase.
  unfold remote_retry.__call__.
  destruct (Z.to_nat (remote_retry.max_retries self)) as [| n] eqn:Hn; [lia |].
  rewrite retry_loop_decides.
  - now rewrite Hcall.
  - unfold remote_retry.fails_retryably, remote_retry.retryable.
    rewrite Hcall. simpl. now rewrite Hbase.
Qed.

(** ** Exception classes *)

Lemma exc_class_eqb_eq c : forall d, exc_class_eqb c d = true <-> c = d.
Proof.
  induction c as [| n b IH]; intros [| n' b']; simpl; try easy.
  rewrite andb_true_iff, String.eqb_eq, IH. split.
  - now intros [-> ->].
  - now intros [= -> ->].
Qed.

Lemma issubclass_refl c : issubclass c c = true.
Proof.
  destruct c; simpl; [reflexivity |].
  apply orb_true_iff. left. apply andb_true_iff. split.
  - apply String.eqb_refl.
  - now apply exc_class_eqb_eq.
Qed.

Lemma issubclass_unfold c d :
  issubclass c d
  = exc_class_eqb c d
    || match c with
       | BaseException => false
       | Derived _ b => issubclass b d
       end.
Proof. now destruct c. Qed.

Lemma issubclass_trans c : forall d e,
  issubclass c d = true -> issubclass d e = true -> issubclass c e = true.
Proof.
  induction c as [| n b IH]; intros d e Hcd Hde;
    rewrite issubclass_unfold in Hcd;
    apply orb_true_iff in Hcd as [Heq | Hup].
  - apply exc_class_eqb_eq in Heq. now subst d.
  - discriminate.
  - apply exc_class_eqb_eq in Heq. now subst d.
  - rewrite issubclass_unfold. apply orb_true_iff. right. now apply (IH d e).
Qed.

(** X3.  Whatever a call site passes as [retry_on], an instance of
    [RetryableFailure] or of a class derived from it is retried: the
    hard-coded class is always in the set, and the call-site classes are
    only added to it. *)
Theorem retryable_failure_is_retried_by_every_decorator :
  forall (g : N) (m : option Z) (b : option N) (ro : option (list exc_class))
         (e : exn),
    isinstance e api.RetryableFailure = true ->
    remote_retry.retryable (remote_retry.__init__ g m b ro) e = true
    /\ (forall l,
          remote_retry.retryable (remote_retry.__init__ g m b None) e = true ->
          remote_retry.retryable (remote_retry.__init__ g m b (Some l)) e = true).
Proof.
  intros g m b ro e Hinst.
  assert (Hall : forall ro', remote_retry.retryable (remote_retry.__init__ g m b ro') e = true).
  { intros ro'. unfold remote_retry.retryable. apply andb_true_iff. split.
    - unfold isinstance in *.
      now apply (issubclass_trans _ api.RetryableFailure Exception).
    - simpl. now rewrite Hinst. }
  split; [apply Hall | intros l _; apply Hall].
Qed.

Lemma retryable_failure_is_retried_by_every_decorator_witness :
  isinstance Fixtures.timed_out api.RetryableFailure = true
  /\ remote_retry.retryable Fixtures.eager_retry Fixtures.timed_out = true.
Proof.
  split; [reflexivity |].
  destruct (retryable_failure_is_retried_by_every_decorator
              global_retry_backoff None None (Some [KeyboardInterrupt])
              Fixtures.timed_out eq_refl) as [Hretried _].
  exact Hretried.
Defined.

Lemma non_exception_is_never_retried_witness :
  In KeyboardInterrupt (remote_retry.retry_on Fixtures.eager_retry)
  /\ remote_retry.__call__ Fixtures.eager_retry Fixtures.interrupted tt
       {| inner := 0; rlog := [] |}
     = (Raised Fixtures.interrupt, {| inner := 1; rlog := [] |}).
Proof.
  split; [right; left; reflexivity |].
  apply (non_exception_is_never_retried nat unit string Fixtures.eager_retry
           Fixtures.interrupted tt {| inner := 0; rlog := [] |}
           Fixtures.interrupt 1);
    [discriminate | reflexivity | reflexivity].
Defined.

(** ** DockerConnector, further *)

Section DockerOutcome.
Context {W : Type} (svc : services W).

Lemma state_after_succ {St Args A} (func : pyfunc St Args A) (args : Args) k :
  forall s,
    remote_retry.state_after func args (S k) s
    = snd (fn_call func args (remote_retry.state_after func args k s)).
Proof.
  induction k as [| k IH]; intros s; [reflexivity |].
  change (remote_retry.state_after func args (S (S k)) s)
    with (remote_retry.state_after func args (S k) (snd (fn_call func args s))).
  now rewrite IH.
Qed.

(** What one attempt adds to the log. *)
Lemma upload_body_shape (self : DockerConnector.t)
    (args : DockerConnector.upload_args) (s : state W) :
  exists new,
    events (snd (DockerConnector.upload_body svc self args s))
    = (events s ++ new)%list
    /\ (new = [DockerFromEnv]
        \/ exists image path tag mid,
             new = (DockerFromEnv :: DockerTag image path tag :: mid
                      ++ [DockerRemoveImage (path +:+ ":" +:+ tag)])%list
             /\ (mid = [] \/ exists user pass, mid = [DockerPush path tag user pass])).
Proof.
  destruct args as [[local_name upload_name] upload_tag].
  destruct (docker_from_env svc (world s)) as [[[] | e] w] eqn:Henv.
  - destruct (decide (length (split ":" local_name) = 2)) as [Hlen | Hlen].
    + destruct (split ":" local_name) as [| name [| tag [| c rest]]] eqn:Hsplit;
        try discriminate.
      destruct (DockerConnector.registry_list self) as [| registry others] eqn:Hreg.
      * exists [DockerFromEnv]. split; [| now left].
        apply upload_body_stops_early. now right; right.
      * destruct (upload_body_cleans_up svc self local_name upload_name upload_tag
                    s w name tag registry others Henv Hsplit Hreg)
          as (mid & Hev & Hmid).
        eexists. split; [exact Hev |]. right.
        eexists _, _, _, mid. split; [reflexivity |].
        destruct Hmid as [-> | ->]; [now left | right; eauto].
    + exists [DockerFromEnv]. split; [| now left].
      apply upload_body_stops_early. now right; left.
  - exists [DockerFromEnv]. split; [| now left].
    apply upload_body_stops_early. left. now exists e, w.
Qed.

(** An attempt that returns, returns the alias it has just removed. *)
Lemma upload_body_returns (self : DockerConnector.t) local_name upload_name
    upload_tag (s : state W) v :
  fst (DockerConnector.upload_body svc self (local_name, upload_name, upload_tag) s)
  = Returned v ->
  exists name tag registry others,
    split ":" local_name = [name; tag]
    /\ DockerConnector.registry_list self = registry :: others
    /\ v = DockerConnector.upload_url registry (default name upload_name)
             (default tag upload_tag)
    /\ last (events (snd (DockerConnector.upload_body svc self
                            (local_name, upload_name, upload_tag) s)))
       = Some (DockerRemoveImage v)
    /\ DockerPush (registry +:+ "/" +:+ default name upload_name)
         (default tag upload_tag) (DockerConnector.username self)
         (DockerConnector.password self)
       ∈ new_events s (snd (DockerConnector.upload_body svc self
                              (local_name, upload_name, upload_tag) s)).
Proof.
  unfold DockerConnector.upload_body, bind, call, new_events.
  destruct (docker_from_env svc (world s)) as [[[] | e] w]; simpl; [| discriminate].
  destruct (split ":" local_name) as [| name [| tag [| c rest]]]; simpl;
    try discriminate.
  destruct (DockerConnector.registry_list self) as [| registry others]; simpl;
    [discriminate |].
  unfold try_finally, bind, call, receive, ret. simpl.
  destruct (docker_api_tag svc _ _ _ w) as [[[] | e1] w1]; simpl.
  - destruct (docker_images_push svc _ _ _ _ w1) as [[out | e2] w2]; simpl.
    + destruct (check_docker_stream svc out w2) as [[[] | e3] w3]; simpl;
        destruct (docker_api_remove_image svc _ w3) as [[[] | e4] w4]; simpl;
        try discriminate.
      intros [= <-]. exists name, tag, registry, others.
      repeat split; [apply last_snoc |].
      rewrite <- !app_assoc, drop_app_length. simpl.
      apply list_elem_of_In. simpl. tauto.
    + destruct (docker_api_remove_image svc _ w2) as [[[] | e4] w4]; simpl;
        discriminate.
  - destruct (docker_api_remove_image svc _ w1) as [[[] | e4] w4]; simpl;
      discriminate.
Qed.

End DockerOutcome.

Section DockerBounds.
Context {W : Type} (svc : services W).

Lemma shape_pushes (new : list event) :
  new = [DockerFromEnv]
  \/ (exists image path tag mid,
        new = (DockerFromEnv :: DockerTag image path tag :: mid
                 ++ [DockerRemoveImage (path +:+ ":" +:+ tag)])%list
        /\ (mid = [] \/ exists user pass, mid = [DockerPush path tag user pass])) ->
  DockerConnector.pushes new <= 1.
Proof.
  intros [-> | (image & path & tag & mid & -> & [-> | (user & pass & ->)])];
    cbv; lia.
Qed.

Lemma pushes_app l l' :
  DockerConnector.pushes (l ++ l')
  = DockerConnector.pushes l + DockerConnector.pushes l'.
Proof. unfold DockerConnector.pushes. now rewrite filter_app, length_app. Qed.

(** After [k] attempts the log has grown, by at most [k] pushes. *)
Lemma attempts_push_at_most_once_each addr (self : DockerConnector.t) args k :
  forall s : state W,
    exists pre,
      events (remote_retry.state_after (DockerConnector.upload_func svc addr self)
                args k s)
      = (events s ++ pre)%list
      /\ DockerConnector.pushes pre <= k.
Proof.
  induction k as [| k IH]; intros s.
  - exists []. split; [now rewrite app_nil_r | cbv; lia].
  - simpl remote_retry.state_after.
    destruct (upload_body_shape svc self args s) as (new & Hev & Hshape).
    destruct (IH (snd (DockerConnector.upload_body svc self args s)))
      as (pre & Hpre & Hcount).
    exists (new ++ pre)%list. split.
    + rewrite Hpre, Hev. now rewrite app_assoc.
    + rewrite pushes_app. apply shape_pushes in Hshape. lia.
Qed.

Lemma exn_class_chain_context e inflight :
  exn_class (chain_context e inflight) = exn_class e
  /\ exn_msg (chain_context e inflight) = exn_msg e.
Proof. destruct e as [c m [e' |]]; now simpl. Qed.

End DockerBounds.

(** What the decorated upload has done when it returns; the uploads of
    [DockerConnector] and of [ECRConnector] both rest on it. *)
Lemma docker_upload_returned :
  forall (W : Type) (svc : services W) (addr : string) (self : DockerConnector.t)
         (local_name : string) (upload_name upload_tag : option string)
         (s : rstate (state W)) (v : string),
    let r := DockerConnector.upload svc addr self local_name upload_name
               upload_tag s in
    fst r = Returned v ->
    exists name tag registry others,
      split ":" local_name = [name; tag]
      /\ DockerConnector.registry_list self = registry :: others
      /\ v = DockerConnector.upload_url registry (default name upload_name)
               (default tag upload_tag)
      /\ last (events (inner (snd r))) = Some (DockerRemoveImage v)
      /\ DockerPush (registry +:+ "/" +:+ default name upload_name)
           (default tag upload_tag) (DockerConnector.username self)
           (DockerConnector.password self)
         ∈ new_events (inner s) (inner (snd r)).
Proof.
  intros W svc addr self local_name upload_name upload_tag s v r Hret.
  set (func := DockerConnector.upload_func svc addr self).
  set (args := (local_name, upload_name, upload_tag)).
  destruct (retry_loop_outcome DockerConnector.upload_retry func args
              (Z.to_nat (remote_retry.max_retries DockerConnector.upload_retry)) s)
    as (k & _ & _ & [[_ Hend] | (_ & _ & Hend)]);
    change (remote_retry.retry_loop DockerConnector.upload_retry func args _ s)
      with r in Hend; rewrite Hend in Hret |- *; [discriminate |].
  cbn [fst snd inner] in *.
  destruct (upload_body_returns svc self local_name upload_name upload_tag
              (remote_retry.state_after func args k (inner s)) v Hret)
    as (name & tag & registry & others & Hsplit & Hreg & Hv & Hlast & Hpush).
  exists name, tag, registry, others.
  rewrite state_after_succ. repeat (split; [assumption |]).
  destruct (attempts_push_at_most_once_each svc addr self args k (inner s))
    as (pre & Hpre & _).
  destruct (upload_body_shape svc self args
              (remote_retry.state_after func args k (inner s)))
    as (new & Hnew & _).
  unfold new_events in *. fold func args in Hpre, Hnew, Hpush.
  rewrite Hnew, drop_app_length in Hpush.
  change (fn_call func args) with (DockerConnector.upload_body svc self args).
  rewrite Hnew, Hpre, <- app_assoc, drop_app_length.
  apply elem_of_app. now right.
Qed.

(** X4.  When [DockerConnector.upload] returns, the value is the alias
    [registries[0]/uploadName:uploadTag]; that alias has been pushed during
    the call, and the last call made is its [remove_image]. *)
Theorem docker_upload_returns_the_pushed_alias :
  forall (W : Type) (svc : services W) (addr : string) (self : DockerConnector.t)
         (local_name : string) (upload_name upload_tag : option string)
         (s : rstate (state W)) (v : string),
    let r := DockerConnector.upload svc addr self local_name upload_name
               upload_tag s in
    fst r = Returned v ->
    exists name tag registry others,
      split ":" local_name = [name; tag]
      /\ DockerConnector.registry_list self = registry :: others
      /\ v = DockerConnector.upload_url registry (default name upload_name)
               (default tag upload_tag)
      /\ last (events (inner (snd r))) = Some (DockerRemoveImage v)
      /\ DockerPush (registry +:+ "/" +:+ default name upload_name)
           (default tag upload_tag) (DockerConnector.username self)
           (DockerConnector.password self)
         ∈ new_events (inner s) (inner (snd r)).
Proof. intros W svc addr self. apply docker_upload_returned. Qed.

Lemma docker_upload_returns_the_pushed_alias_witness :
  last (events (inner (snd (DockerConnector.upload Fixtures.quiet "7f10"
                              Fixtures.registry "myimg:1.0" None (Some "latest")
                              (Fixtures.fresh ∅)))))
  = Some (DockerRemoveImage "reg.example.com/myimg:latest").
Proof.
  destruct (docker_upload_returns_the_pushed_alias nat Fixtures.quiet "7f10"
              Fixtures.registry "myimg:1.0" None (Some "latest")
              (Fixtures.fresh ∅) "reg.example.com/myimg:latest" eq_refl)
    as (name & tag & registry & others & _ & _ & _ & Hlast & _).
  exact Hlast.
Defined.



(** X6.  When [remove_image] raises, the attempt raises an exception of
    that class and with that message, also when the image has been pushed
    and checked: a failing cleanup turns a successful push into a failure.
    If the class is not in the retryable set, the decorated upload raises
    it after that one attempt. *)
Theorem failing_cleanup_fails_the_upload :
  forall (W : Type) (svc : services W) (addr : string) (self : DockerConnector.t)
         (local_name : string) (upload_name upload_tag : option string)
         (s : rstate (state W)) (w : W) (name tag registry : string)
         (others : list string) (e2 : exn),
    docker_from_env svc (world (inner s)) = (Returned tt, w) ->
    split ":" local_name = [name; tag] ->
    DockerConnector.registry_list self = registry :: others ->
    (forall w1, exists w2,
       docker_api_remove_image svc
         (DockerConnector.upload_url registry (default name upload_name)
            (default tag upload_tag)) w1
       = (Raised e2, w2)) ->
    (exists e,
       fst (DockerConnector.upload_body svc self
              (local_name, upload_name, upload_tag) (inner s)) = Raised e
       /\ exn_class e = exn_class e2 /\ exn_msg e = exn_msg e2)
    /\ (existsb (isinstance e2) (remote_retry.retry_on DockerConnector.upload_retry)
        = false ->
        exists e,
          fst (DockerConnector.upload svc addr self local_name upload_name
                 upload_tag s) = Raised e
          /\ exn_class e = exn_class e2 /\ exn_msg e = exn_msg e2
          /\ rlog (snd (DockerConnector.upload svc addr self local_name
                          upload_name upload_tag s)) = rlog s).
Proof.
  intros W svc addr self local_name upload_name upload_tag s w name tag registry
    others e2 Henv Hsplit Hreg Hclean.
  assert (Hbody : exists e st,
            DockerConnector.upload_body svc self
              (local_name, upload_name, upload_tag) (inner s) = (Raised e, st)
            /\ exn_class e = exn_class e2 /\ exn_msg e = exn_msg e2).
  { unfold DockerConnector.upload_body, bind, call. rewrite Henv, Hsplit.
    simpl. rewrite Hreg. simpl.
    unfold try_finally, bind, call, receive, ret. simpl.
    unfold DockerConnector.upload_url in Hclean.
    destruct (docker_api_tag svc _ _ _ w) as [[[] | e1] w1]; simpl.
    - destruct (docker_images_push svc _ _ _ _ w1) as [[out | e1] w2]; simpl.
      + destruct (check_docker_stream svc out w2) as [[[] | e1] w3]; simpl;
          destruct (Hclean w3) as [w4 ->]; simpl; eexists _, _;
          (split; [reflexivity |]);
          first [now split | apply exn_class_chain_context].
      + destruct (Hclean w2) as [w4 ->]; simpl. eexists _, _.
        split; [reflexivity | apply exn_class_chain_context].
    - destruct (Hclean w1) as [w4 ->]; simpl. eexists _, _.
      split; [reflexivity | apply exn_class_chain_context]. }
  destruct Hbody as (e & st & Hbody & Hclass & Hmsg). split.
  - exists e. now rewrite Hbody.
  - intros Hfatal. exists e.
    unfold DockerConnector.upload, remote_retry.__call__.
    change (Z.to_nat (remote_retry.max_retries DockerConnector.upload_retry)) with 3.
    rewrite (retry_loop_propagates _ _ _ 2 s e st).
    + now repeat split.
    + exact Hbody.
    + unfold isinstance in *. now rewrite Hclass.
Qed.

Lemma failing_cleanup_fails_the_upload_witness :
  fst (DockerConnector.upload_body Fixtures.failing_cleanup Fixtures.registry
         ("myimg:1.0", None, None) (Fixtures.start ∅))
  = Raised Fixtures.conflict
  /\ DockerPush "reg.example.com/myimg" "1.0" "user" "secret"
     ∈ events (snd (DockerConnector.upload_body Fixtures.failing_cleanup
                      Fixtures.registry ("myimg:1.0", None, None)
                      (Fixtures.start ∅))).
Proof.
  destruct (failing_cleanup_fails_the_upload nat Fixtures.failing_cleanup "7f10"
              Fixtures.registry "myimg:1.0" None None (Fixtures.fresh ∅) 1
              "myimg" "1.0" "reg.example.com" [] Fixtures.conflict
              eq_refl eq_refl eq_refl
              (fun w1 => ex_intro _ (S w1) eq_refl))
    as [(e & He & _) _].
  split; [reflexivity |].
  apply list_elem_of_In. simpl. tauto.
Defined.

(** X7.  One call of [DockerConnector.upload] pushes at most three times,
    whatever the daemon answers: the decorator allows three attempts and
    an attempt pushes at most once. *)
Theorem docker_upload_pushes_at_most_three_times :
  forall (W : Type) (svc : services W) (addr : string) (self : DockerConnector.t)
         (local_name : string) (upload_name upload_tag : option string)
         (s : rstate (state W)),
    DockerConnector.pushes
      (new_events (inner s)
         (inner (snd (DockerConnector.upload svc addr self local_name
                        upload_name upload_tag s))))
    <= 3.
Proof.
  intros W svc addr self local_name upload_name upload_tag s.
  set (func := DockerConnector.upload_func svc addr self).
  set (args := (local_name, upload_name, upload_tag)).
  assert (Hk : exists k, k <= 3
                 /\ inner (snd (DockerConnector.upload svc addr self local_name
                                  upload_name upload_tag s))
                    = remote_retry.state_after func args k (inner s)).
  { destruct (retry_loop_outcome DockerConnector.upload_retry func args 3 s)
      as (k & Hle & _ & [[_ Hend] | (Hlt & _ & Hend)]).
    - exists 3. split; [lia |].
      unfold DockerConnector.upload, remote_retry.__call__.
      change (Z.to_nat (remote_retry.max_retries DockerConnector.upload_retry))
        with 3.
      fold func args. now rewrite Hend.
    - exists (S k). split; [lia |].
      unfold DockerConnector.upload, remote_retry.__call__.
      change (Z.to_nat (remote_retry.max_retries DockerConnector.upload_retry))
        with 3.
      fold func args. now rewrite Hend. }
  destruct Hk as (k & Hle & ->).
  destruct (attempts_push_at_most_once_each svc addr self args k (inner s))
    as (pre & Hpre & Hcount).
  unfold new_events. fold func in Hpre. rewrite Hpre, drop_app_length. lia.
Qed.

(** ** ECRConnector, further *)

Section EcrOutcome.
Context {W : Type} (svc : services W).

Create HintDb windlass_ecr.
Local Hint Resolve grows_by_refl grows_by_trans : windlass_ecr.

Lemma create_repo_body_ecr_only (self : ECRConnector.t) name u :
  respects (grows_by (ecr_call_for name))
    (ECRConnector._create_repo_body svc self name u).
Proof.
  unfold ECRConnector._create_repo_body.
  apply respects_bind; eauto with windlass_ecr.
  - apply respects_try_except; eauto with windlass_ecr.
    + apply respects_bind; eauto with windlass_ecr.
      * apply respects_call. now left.
      * intros _. apply respects_ret; eauto with windlass_ecr.
    + apply respects_ret; eauto with windlass_ecr.
  - intros _. unfold ECRConnector._set_repo_policy.
    destruct (ECRConnector.new_repo_policy self) as [p |];
      [destruct (String.eqb p "") |];
      first [apply respects_ret; eauto with windlass_ecr
            | apply respects_call; right; now exists p].
Qed.

(** What a call of [_create_repo_if_new] does to the state, by outcome. *)
Lemma create_repo_if_new_effect grb addr (self : ECRConnector.t) name
    (s : rstate (state W)) :
  let r := ECRConnector._create_repo_if_new svc grb addr self name s in
  (exists new,
     events (inner (snd r)) = (events (inner s) ++ new)%list
     /\ Forall (ecr_call_for name) new)
  /\ match fst r with
     | Returned _ =>
         existing_repos (inner (snd r)) = {[name]} ∪ existing_repos (inner s)
     | Raised _ => existing_repos (inner (snd r)) = existing_repos (inner s)
     end.
Proof.
  unfold ECRConnector._create_repo_if_new.
  destruct (decide (name ∈ existing_repos (inner s))) as [Hin | Hout]; cbn zeta.
  - split.
    + exists []. split; [now rewrite app_nil_r | constructor].
    + cbn [fst snd]. symmetry. apply subseteq_union_1_L.
      now apply singleton_subseteq_l.
  - pose proof (respects_retry (grows_by (ecr_call_for name))
                  (grows_by_refl _) (grows_by_trans _)
                  (ECRConnector._create_repo_retry grb)
                  (ECRConnector._create_repo_func svc addr self name) tt s
                  (create_repo_body_ecr_only self name tt))
      as (Hcat & new & Hev & Hnew).
    unfold bind.
    destruct (remote_retry.__call__ _ _ tt s) as [[[] | e] s1];
      unfold remote_retry.lift, ECRConnector.add_existing_repo;
      cbn [fst snd inner existing_repos events] in *.
    + split; [now exists new | now rewrite Hcat].
    + split; [now exists new | exact Hcat].
Qed.

End EcrOutcome.

(** X8.  Ensuring a repository is idempotent: once [_create_repo_if_new]
    has returned, the name is in the catalog, and ensuring it again
    returns at once, without any call and without changing the state. *)
Theorem ensured_repository_is_not_ensured_again :
  forall (W : Type) (svc : services W) (grb : N) (addr : string)
         (self : ECRConnector.t) (name : string) (s s1 : rstate (state W)),
    ECRConnector._create_repo_if_new svc grb addr self name s = (Returned tt, s1) ->
    name ∈ existing_repos (inner s1)
    /\ (forall grb' addr' self',
          ECRConnector._create_repo_if_new svc grb' addr' self' name s1
          = (Returned tt, s1)).
Proof.
  intros W svc grb addr self name s s1 Hensure.
  assert (Hin : name ∈ existing_repos (inner s1)).
  { destruct (create_repo_if_new_effect svc grb addr self name s) as [_ Hcat].
    rewrite Hensure in Hcat. cbn [fst snd] in Hcat. rewrite Hcat.
    apply elem_of_union. left. now apply elem_of_singleton. }
  split; [exact Hin |]. intros grb' addr' self'.
  unfold ECRConnector._create_repo_if_new.
  now destruct (decide (name ∈ existing_repos (inner s1))).
Qed.

Lemma ensured_repository_is_not_ensured_again_witness :
  ECRConnector._create_repo_if_new Fixtures.quiet 5 "7f11" Fixtures.managed
    "team/foo"
    (snd (ECRConnector._create_repo_if_new Fixtures.quiet 5 "7f11"
            Fixtures.managed "team/foo" (Fixtures.fresh ∅)))
  = (Returned tt,
     snd (ECRConnector._create_repo_if_new Fixtures.quiet 5 "7f11"
            Fixtures.managed "team/foo" (Fixtures.fresh ∅))).
Proof.
  assert (Hfirst :
            ECRConnector._create_repo_if_new Fixtures.quiet 5 "7f11"
              Fixtures.managed "team/foo" (Fixtures.fresh ∅)
            = (Returned tt,
               snd (ECRConnector._create_repo_if_new Fixtures.quiet 5 "7f11"
                      Fixtures.managed "team/foo" (Fixtures.fresh ∅))))
    by (vm_compute; reflexivity).
  destruct (ensured_repository_is_not_ensured_again nat Fixtures.quiet 5 "7f11"
              Fixtures.managed "team/foo" (Fixtures.fresh ∅) _ Hfirst)
    as [_ Hagain].
  apply Hagain.
Defined.

(** X9.  When the repository cannot be ensured, [ECRConnector.upload]
    raises the exception of [_create_repo_if_new] as it is, the catalog is
    unchanged, and the only calls made are ECR calls for that repository:
    nothing is tagged or pushed. *)
Theorem failed_ensure_stops_the_upload :
  forall (W : Type) (svc : services W) (grb : N) (addr addr' : string)
         (self : ECRConnector.t) (local_name : string)
         (upload_name upload_tag : option string)
         (s s1 : rstate (state W)) (d : string) (e : exn),
    ECRConnector.destination self local_name upload_name = Some d ->
    ECRConnector._create_repo_if_new svc grb addr self d s = (Raised e, s1) ->
    ECRConnector.upload svc grb addr addr' self local_name upload_name upload_tag s
    = (Raised e, s1)
    /\ existing_repos (inner s1) = existing_repos (inner s)
    /\ (forall ev, ev ∈ new_events (inner s) (inner s1) ->
          ev = EcrCreateRepository d
          \/ exists policy, ev = EcrSetRepositoryPolicy d policy).
Proof.
  intros W svc grb addr addr' self local_name upload_name upload_tag s s1 d e
    Hd Hensure.
  destruct (create_repo_if_new_effect svc grb addr self d s)
    as [(new & Hev & Hnew) Hcat].
  rewrite Hensure in Hev, Hcat. cbn [fst snd] in Hev, Hcat.
  split; [| split].
  - rewrite (ecr_upload_unfolds svc _ _ _ _ _ _ _ d) by exact Hd.
    unfold bind. now rewrite Hensure.
  - exact Hcat.
  - intros ev. unfold new_events. rewrite Hev, drop_app_length.
    rewrite Forall_forall in Hnew. apply Hnew.
Qed.

Lemma failed_ensure_stops_the_upload_witness :
  ECRConnector.upload Fixtures.denied 5 "7f11" "7f10" Fixtures.managed
    "foo:1" None None (Fixtures.fresh ∅)
  = (Raised Fixtures.access_denied,
     {| inner := {| world := 1;
                    events := [EcrCreateRepository "team/foo"];
                    existing_repos := ∅ |};
        rlog := [] |}).
Proof.
  assert (Hensure :
            ECRConnector._create_repo_if_new Fixtures.denied 5 "7f11"
              Fixtures.managed "team/foo" (Fixtures.fresh ∅)
            = (Raised Fixtures.access_denied,
               {| inner := {| world := 1;
                              events := [EcrCreateRepository "team/foo"];
                              existing_repos := ∅ |};
                  rlog := [] |}))
    by (vm_compute; reflexivity).
  destruct (failed_ensure_stops_the_upload nat Fixtures.denied 5 "7f11" "7f10"
              Fixtures.managed "foo:1" None None _ _ "team/foo" _
              eq_refl Hensure) as [Hupload _].
  exact Hupload.
Defined.

Section EcrRace.
Context {W : Type} (svc : services W).

Lemma not_found_is_retryable grb e :
  isinstance e ecr_exceptions.RepositoryNotFoundException = true ->
  remote_retry.retryable (ECRConnector._create_repo_retry grb) e = true.
Proof.
  intros Hinst. unfold remote_retry.retryable. apply andb_true_iff. split.
  - unfold isinstance in *.
    now apply (issubclass_trans _ ecr_exceptions.RepositoryNotFoundException Exception).
  - simpl. rewrite Hinst. now rewrite orb_true_r.
Qed.

Lemma listed_names_come_from_pages (pages : list (list string)) :
  forall (acc : gset string) (name : string),
    name ∈ fold_left (fun acc page => acc ∪ list_to_set page) pages acc ->
    name ∈ acc \/ (exists page, page ∈ pages /\ name ∈ page).
Proof.
  induction pages as [| page pages IH]; intros acc name Hname; simpl in Hname.
  - now left.
  - apply IH in Hname as [Hacc | (page' & Hpage & Hin)].
    + apply elem_of_union in Hacc as [Hacc | Hpage]; [now left |].
      right. exists page. split; [apply elem_of_cons; now left |].
      now apply elem_of_list_to_set in Hpage.
    + right. exists page'. split; [apply elem_of_cons; now right | exact Hin].
Qed.

End EcrRace.

(** X10.  The nested [_create_repo] is retried when the policy call finds
    the repository not yet visible: if [create_repository] returns (or
    reports that the repository exists), [set_repository_policy] raises
    [RepositoryNotFoundException], and on the second attempt both calls go
    through, then [_create_repo_if_new] returns after one back-off, having
    called [create_repository] twice, and the name is in the catalog. *)
Theorem repository_not_found_is_retried :
  forall (W : Type) (svc : services W) (grb : N) (addr : string)
         (self : ECRConnector.t) (name policy : string) (s : rstate (state W))
         (c1 c2 : outcome string) (e : exn) (w1 w2 w3 w4 : W),
    name ∉ existing_repos (inner s) ->
    ECRConnector.new_repo_policy self = Some policy ->
    policy <> "" ->
    ecr_create_repository svc name (world (inner s)) = (c1, w1) ->
    ECRConnector.tolerated c1 ->
    ecr_set_repository_policy svc name policy w1 = (Raised e, w2) ->
    isinstance e ecr_exceptions.RepositoryNotFoundException = true ->
    ecr_create_repository svc name w2 = (c2, w3) ->
    ECRConnector.tolerated c2 ->
    ecr_set_repository_policy svc name policy w3 = (Returned tt, w4) ->
    ECRConnector._create_repo_if_new svc grb addr self name s
    = (Returned tt,
       {| inner :=
            {| world := w4;
               events :=
                 events (inner s)
                   ++ [EcrCreateRepository name;
                       EcrSetRepositoryPolicy name policy;
                       EcrCreateRepository name;
                       EcrSetRepositoryPolicy name policy];
               existing_repos := {[name]} ∪ existing_repos (inner s) |};
          rlog :=
            rlog s
              ++ remote_retry.backoff (ECRConnector._create_repo_retry grb)
                   (ECRConnector._create_repo_func svc addr self name) |}).
Proof.
  intros W svc grb addr self name policy s c1 c2 e w1 w2 w3 w4
    Hout Hpolicy Hne Hc1 Ht1 Hp1 Hnf Hc2 Ht2 Hp2.
  apply String.eqb_neq in Hne.
  assert (Hset : forall st,
            ECRConnector._set_repo_policy svc self name st
            = call (EcrSetRepositoryPolicy name policy)
                (ecr_set_repository_policy svc name policy) st).
  { intros st. unfold ECRConnector._set_repo_policy. now rewrite Hpolicy, Hne. }
  unfold ECRConnector._create_repo_if_new.
  destruct (decide (name ∈ existing_repos (inner s))); [contradiction |].
  unfold bind, remote_retry.__call__.
  change (Z.to_nat (remote_retry.max_retries (ECRConnector._create_repo_retry grb)))
    with 3.
  rewrite retry_loop_retries.
  - cbn [fn_call ECRConnector._create_repo_func inner rlog].
    rewrite (create_repo_body_tolerates svc self name (inner s) c1 w1 Hc1 Ht1).
    rewrite Hset. unfold call at 1. cbn [world events existing_repos].
    rewrite Hp1. cbn [snd].
    erewrite retry_loop_returns.
    2: { cbn [fn_call ECRConnector._create_repo_func inner].
         rewrite (create_repo_body_tolerates svc self name _ c2 w3); [| exact Hc2 | exact Ht2].
         rewrite Hset. unfold call. cbn [world events existing_repos].
         rewrite Hp2. reflexivity. }
    unfold remote_retry.lift, ECRConnector.add_existing_repo.
    cbn [inner rlog world events existing_repos].
    now rewrite <- !app_assoc.
  - unfold remote_retry.fails_retryably.
    cbn [fn_call ECRConnector._create_repo_func].
    rewrite (create_repo_body_tolerates svc self name (inner s) c1 w1 Hc1 Ht1).
    rewrite Hset. unfold call. cbn [world]. rewrite Hp1. cbn [fst].
    now apply not_found_is_retryable.
Qed.

Lemma repository_not_found_is_retried_witness :
  fst (ECRConnector._create_repo_if_new Fixtures.eventually_consistent 5
         "7f11" Fixtures.managed "team/foo" (Fixtures.fresh ∅))
  = Returned tt
  /\ remote_retry.sleeps
       (rlog (snd (ECRConnector._create_repo_if_new
                     Fixtures.eventually_consistent 5 "7f11" Fixtures.managed
                     "team/foo" (Fixtures.fresh ∅)))) = 1.
Proof.
  assert (Hout : "team/foo" ∉ existing_repos (inner (Fixtures.fresh ∅)))
    by apply not_elem_of_empty.
  rewrite (repository_not_found_is_retried nat Fixtures.eventually_consistent 5
             "7f11" Fixtures.managed "team/foo" "{policy}" (Fixtures.fresh ∅)
             (Returned "ecr/team/foo") (Raised Fixtures.exists_already)
             Fixtures.not_found_yet 1 2 3 4 Hout eq_refl);
    [split; reflexivity | discriminate | reflexivity | exact I | reflexivity
    | reflexivity | reflexivity | reflexivity | reflexivity].
Defined.

(** X11.  [_list_existing_repos] returns exactly the names that occur on
    some page of the listing: a name is in the set if and only if a page
    holds it.  Nothing else is called. *)
Theorem listing_is_the_union_of_the_pages :
  forall (W : Type) (svc : services W) (s : state W)
         (pages : list (list string)) (w : W),
    ecr_describe_repositories svc (world s) = (Returned pages, w) ->
    exists repos : gset string,
      ECRConnector._list_existing_repos svc s
      = (Returned repos,
         {| world := w;
            events := events s ++ [EcrDescribeRepositories];
            existing_repos := existing_repos s |})
      /\ (forall name,
            name ∈ repos <-> exists page, page ∈ pages /\ name ∈ page).
Proof.
  intros W svc s pages w Hlist.
  exists (fold_left (fun acc page => acc ∪ list_to_set page) pages ∅). split.
  - unfold ECRConnector._list_existing_repos, bind, call, ret. now rewrite Hlist.
  - intros name. split.
    + intros Hname. apply listed_names_come_from_pages in Hname as [Hempty | Hpage];
        [now apply not_elem_of_empty in Hempty | exact Hpage].
    + intros Hpage. apply listed_names_accumulate. now right.
Qed.

Lemma listing_is_the_union_of_the_pages_witness :
  fst (ECRConnector._list_existing_repos
         (Fixtures.answering 201 404 [["a"; "b"]; []; ["c"]]) (Fixtures.start ∅))
  = Returned ({["a"]} ∪ {["b"]} ∪ {["c"]}).
Proof.
  destruct (listing_is_the_union_of_the_pages nat
              (Fixtures.answering 201 404 [["a"; "b"]; []; ["c"]])
              (Fixtures.start ∅) [["a"; "b"]; []; ["c"]] 1 eq_refl)
    as (repos & Hcall & _).
  vm_compute. reflexivity.
Defined.

(** X12.  When [ECRConnector.upload] returns, the value is the alias of
    the image under the first path prefix,
    [registries[0]/prefix+uploadName:uploadTag], and its repository is in
    the catalog afterwards. *)
Theorem ecr_upload_returns_the_prefixed_alias :
  forall (W : Type) (svc : services W) (grb : N) (addr addr' : string)
         (self : ECRConnector.t) (local_name : string)
         (upload_name upload_tag : option string)
         (s : rstate (state W)) (v : string),
    let r := ECRConnector.upload svc grb addr addr' self local_name upload_name
               upload_tag s in
    fst r = Returned v ->
    exists name tag prefix others registry registries,
      split ":" local_name = [name; tag]
      /\ ECRConnector.path_prefixes self = prefix :: others
      /\ DockerConnector.registry_list (ECRConnector.base self)
         = registry :: registries
      /\ v = DockerConnector.upload_url registry
               (prefix +:+ default name upload_name) (default tag upload_tag)
      /\ (prefix +:+ default name upload_name) ∈ existing_repos (inner (snd r)).
Proof.
  intros W svc grb addr addr' self local_name upload_name upload_tag s v r Hret.
  subst r. unfold ECRConnector.upload, bind in *.
  destruct (split ":" local_name) as [| name [| tag [| c rest]]] eqn:Hsplit;
    simpl in Hret; try discriminate.
  simpl.
  destruct (ECRConnector.path_prefixes self) as [| prefix others] eqn:Hprefix;
    simpl in Hret |- *; [discriminate |].
  set (d := prefix +:+ default name upload_name) in *.
  destruct (create_repo_if_new_effect svc grb addr self d s) as [_ Hcat].
  destruct (ECRConnector._create_repo_if_new svc grb addr self d s)
    as [[[] | e] s1]; cbn [fst snd] in *; [| discriminate].
  destruct (docker_upload_returned W svc addr' (ECRConnector.base self) local_name
              (Some d) upload_tag s1 v Hret)
    as (name' & tag' & registry & others' & Hsplit' & Hreg & Hv & _ & _).
  rewrite Hsplit in Hsplit'. injection Hsplit' as <- <-.
  exists name, tag, prefix, others, registry, others'.
  repeat split; try reflexivity.
  - exact Hreg.
  - exact Hv.
  - destruct (docker_upload_safe svc addr' (ECRConnector.base self) local_name
                (Some d) upload_tag s1) as [Hsame _].
    rewrite Hsame, Hcat. apply elem_of_union. left. now apply elem_of_singleton.
Qed.

Lemma ecr_upload_returns_the_prefixed_alias_witness :
  fst (ECRConnector.upload Fixtures.quiet 5 "7f11" "7f10" Fixtures.managed
         "foo:1" None None (Fixtures.fresh ∅))
  = Returned "reg.example.com/team/foo:1"
  /\ "team/foo"
     ∈ existing_repos
         (inner (snd (ECRConnector.upload Fixtures.quiet 5 "7f11" "7f10"
                        Fixtures.managed "foo:1" None None (Fixtures.fresh ∅)))).
Proof.
  assert (Hret : fst (ECRConnector.upload Fixtures.quiet 5 "7f11" "7f10"
                        Fixtures.managed "foo:1" None None (Fixtures.fresh ∅))
                 = Returned "reg.example.com/team/foo:1") by reflexivity.
  split; [exact Hret |].
  destruct (ecr_upload_returns_the_prefixed_alias nat Fixtures.quiet 5 "7f11"
              "7f10" Fixtures.managed "foo:1" None None (Fixtures.fresh ∅)
              "reg.example.com/team/foo:1" Hret)
    as (name & tag & prefix & others & registry & registries
        & Hsplit & Hprefix & _ & _ & Hin).
  injection Hsplit as <- <-. injection Hprefix as <- <-. exact Hin.
Defined.

(** ** The login of ECRConnector *)

Lemma split_max1_at_first sep (user pass : string) :
  count sep user = 0 ->
  split_max1 sep (user +:+ String sep pass) = [user; pass].
Proof.
  induction user as [| c user IH]; simpl; intros Hcount.
  - now rewrite Ascii.eqb_refl.
  - destruct (Ascii.eqb c sep); [discriminate |].
    now rewrite IH.
Qed.


(** X13.  [_docker_login] splits the decoded token at its first colon:
    with a response whose first entry decodes to [user:password], the
    login is the network location of the proxy endpoint, [user], and
    everything after the first colon as password, colons included. *)
Theorem docker_login_splits_at_the_first_colon :
  forall (W : Type)
         (get_authorization_token : W -> outcome (list ECRConnector.authorization) * W)
         (urlparse_netloc b64decode_utf8 : string -> outcome string)
         (s : state W) (entry : ECRConnector.authorization)
         (more : list ECRConnector.authorization) (w : W)
         (registry user pass : string),
    get_authorization_token (world s) = (Returned (entry :: more), w) ->
    urlparse_netloc (ECRConnector.proxyEndpoint entry) = Returned registry ->
    b64decode_utf8 (ECRConnector.authorizationToken entry)
    = Returned (user +:+ ":" +:+ pass) ->
    count ":" user = 0 ->
    ECRConnector._docker_login get_authorization_token urlparse_netloc
      b64decode_utf8 s
    = (Returned (registry, user, pass),
       {| world := w; events := events s; existing_repos := existing_repos s |}).
Proof.
  intros W get netloc decode s entry more w registry user pass
    Hget Hnetloc Hdecode Hcount.
  unfold ECRConnector._docker_login, bind, receive, of_outcome.
  rewrite Hget. simpl. rewrite Hnetloc, Hdecode.
  change (user +:+ ":" +:+ pass) with (user +:+ String ":" pass).
  now rewrite split_max1_at_first.
Qed.

Lemma docker_login_splits_at_the_first_colon_witness :
  fst (ECRConnector._docker_login
         (fun n : nat =>
            (Returned [{| ECRConnector.proxyEndpoint := "https://123.dkr.ecr.amazonaws.com";
                          ECRConnector.authorizationToken := "QVdTOnM6Mw==" |}],
             S n))
         (fun _ => Returned "123.dkr.ecr.amazonaws.com")
         (fun _ => Returned "AWS:s:3")
         (Fixtures.start ∅))
  = Returned ("123.dkr.ecr.amazonaws.com", "AWS", "s:3").
Proof.
  now rewrite (docker_login_splits_at_the_first_colon nat _ _ _
                 (Fixtures.start ∅) _ [] 1 "123.dkr.ecr.amazonaws.com" "AWS" "s:3"
                 eq_refl eq_refl eq_refl eq_refl).
Defined.



(** ** The HTTP connectors, further *)

Lemma os_path_join_empty_base b : os_path_join "" b = b.
Proof. unfold os_path_join. now destruct (startswith_sep b). Qed.

Lemma append_assoc (a b c : string) : (a +:+ b) +:+ c = a +:+ (b +:+ c).
Proof.
  induction a as [| x a IH]; [reflexivity |].
  change (String x ((a +:+ b) +:+ c) = String x (a +:+ (b +:+ c))).
  now f_equal.
Qed.

(** X15.  A two-phase connector without staging path is the plain
    connector: it probes nothing and uploads to [base_url/name]. *)
Theorem two_phase_without_staging_path_is_plain :
  forall (W : Type) (svc : services W) (self : HTTPBasicAuthConnector2Phase.t)
         (upload_name : string) (data : stream) (properties : dict)
         (s : state W),
    HTTPBasicAuthConnector2Phase.temp_path self = "" ->
    HTTPBasicAuthConnector2Phase.upload svc self upload_name data properties s
    = HTTPBasicAuthConnector.upload svc (HTTPBasicAuthConnector2Phase.super self)
        upload_name data properties s.
Proof.
  intros W svc self upload_name data properties s Htemp.
  unfold HTTPBasicAuthConnector2Phase.upload, bind. rewrite Htemp. simpl.
  now rewrite os_path_join_empty_base.
Qed.

Lemma two_phase_without_staging_path_is_plain_witness :
  events (snd (HTTPBasicAuthConnector2Phase.upload Fixtures.quiet
                 Fixtures.unstaged "a.tar" [] [] (Fixtures.start ∅)))
  = [HttpPut "https://host/repo/a.tar" [] "user" "secret"].
Proof.
  now rewrite (two_phase_without_staging_path_is_plain nat Fixtures.quiet
                 Fixtures.unstaged "a.tar" [] [] (Fixtures.start ∅) eq_refl).
Defined.

(** X16.  With a staging path, a probe of the final location that does
    not answer [ok] is followed by the plain upload to the staged location
    [base_url/temp_path/name], whose outcome is the outcome of the call; a
    probe that raises ends the call with its exception, and no PUT is
    made. *)
Theorem staged_upload_follows_the_probe :
  forall (W : Type) (svc : services W) (self : HTTPBasicAuthConnector2Phase.t)
         (upload_name : string) (data : stream) (properties : dict)
         (s : state W) (probe : outcome response) (w : W),
    let base := HTTPBasicAuthConnector2Phase.super self in
    let check_url :=
      os_path_join (HTTPBasicAuthConnector.base_url base) upload_name in
    let s1 := {| world := w;
                 events := events s ++ [HttpHead check_url];
                 existing_repos := existing_repos s |} in
    HTTPBasicAuthConnector2Phase.temp_path self <> "" ->
    requests_head svc check_url (world s) = (probe, w) ->
    match probe with
    | Raised e =>
        HTTPBasicAuthConnector2Phase.upload svc self upload_name data properties s
        = (Raised e, s1)
    | Returned check_resp =>
        ok check_resp = false ->
        HTTPBasicAuthConnector2Phase.upload svc self upload_name data properties s
        = HTTPBasicAuthConnector.upload svc base
            (os_path_join (HTTPBasicAuthConnector2Phase.temp_path self) upload_name)
            data properties s1
    end.
Proof.
  intros W svc self upload_name data properties s probe w base check_url s1
    Htemp Hhead.
  apply String.eqb_neq in Htemp.
  unfold HTTPBasicAuthConnector2Phase.upload, bind, call.
  rewrite Htemp. fold base check_url. rewrite Hhead.
  destruct probe as [check_resp | e]; [| reflexivity].
  intros Hok. now rewrite Hok.
Qed.

Lemma staged_upload_follows_the_probe_witness :
  HTTPBasicAuthConnector2Phase.upload Fixtures.no_head Fixtures.staged "a.tar"
    [] [] (Fixtures.start ∅)
  = (Raised Fixtures.connection_error,
     {| world := 1;
        events := [HttpHead "https://host/repo/a.tar"];
        existing_repos := ∅ |}).
Proof.
  exact (staged_upload_follows_the_probe nat Fixtures.no_head Fixtures.staged
           "a.tar" [] [] (Fixtures.start ∅) (Raised Fixtures.connection_error) 1
           ltac:(discriminate) eq_refl).
Defined.

(** X17.  Keys and values go into the URL as they are: nothing is
    escaped.  A value that contains [;key=value] gives the same URL as
    two separate properties. *)
Theorem matrix_parameters_are_not_escaped :
  forall (self : HTTPBasicAuthConnector.t) (upload_name : string)
         (k v k' v' : string) (rest : dict),
    HTTPBasicAuthConnector.upload_url self upload_name
      ((k, v +:+ ";" +:+ k' +:+ "=" +:+ v') :: rest)
    = HTTPBasicAuthConnector.upload_url self upload_name
        ((k, v) :: (k', v') :: rest).
Proof.
  intros self upload_name k v k' v' rest.
  assert (Hprops :
            HTTPBasicAuthConnector.props ((k, v +:+ ";" +:+ k' +:+ "=" +:+ v') :: rest)
            = HTTPBasicAuthConnector.props ((k, v) :: (k', v') :: rest)).
  { unfold HTTPBasicAuthConnector.props, join, dict_items.
    cbn [map fst snd String.concat].
    destruct (map _ rest) as [| p ps]; cbn [String.concat];
      now rewrite !append_assoc. }
  unfold HTTPBasicAuthConnector.upload_url. now rewrite Hprops.
Qed.

(** ** The remotes *)

(** X18.  On a fresh [AWSRemote] every channel is unconfigured: each of
    the uploads, and [get_docker_upload_registry], raises
    [NoValidRemoteError] with a message that holds the text of the remote
    and the name of the channel, and calls nothing. *)
Theorem fresh_aws_remote_has_no_channel :
  forall (W : Type) (svc : services W) (creds : AWSCreds),
    let self := AWSRemote.__init__ creds in
    let error channel :=
      Exn api.NoValidRemoteError
        ("No AWSRemote(region=" +:+ default "None" (region creds)
           +:+ ", key_id=" +:+ key_id creds
           +:+ ") connector configured for " +:+ channel) None in
    (forall grb addr addr' local_name upload_name upload_tag
            (s : rstate (state W)),
       AWSRemote.upload_docker svc grb addr addr' self local_name upload_name
         upload_tag s = (Raised (error "docker"), s))
    /\ (forall s : state W,
          AWSRemote.get_docker_upload_registry self s = (Raised (error "docker"), s))
    /\ (forall artifact_type sig_name sig_stream (s : state W),
          AWSRemote.upload_signature svc self artifact_type sig_name sig_stream s
          = (Raised (error "signatures"), s))
    /\ (forall name data properties (s : state W),
          AWSRemote.upload_generic svc self name data properties s
          = (Raised (error "generic"), s)).
Proof.
  intros W svc creds self error. repeat split.
  all: intros; unfold error, self; cbn;
    unfold ExceptionConnector.__getattr__, raise, AWSRemote.__str__; cbn;
    now rewrite ?append_assoc.
Qed.

(** X19.  Signatures go to the bucket given to [setup_signatures], under
    the key [artifact_type/sig_name] without any prefix, whatever bucket
    and prefix the generic channel is set up with afterwards. *)
Theorem signatures_are_stored_by_type_and_name :
  forall (W : Type) (svc : services W) (self : AWSRemote.t)
         (bucket generic_bucket : string) (prefix : option string)
         (artifact_type sig_name : string) (sig_stream : stream)
         (s : state W) (w : W),
    let key := artifact_type +:+ "/" +:+ sig_name in
    s3_upload_fileobj svc sig_stream bucket key (world s) = (Returned tt, w) ->
    AWSRemote.upload_signature svc
      (AWSRemote.setup_generic (AWSRemote.setup_signatures self bucket)
         generic_bucket prefix)
      artifact_type sig_name sig_stream s
    = (Returned ("https://" +:+ bucket +:+ ".s3.amazonaws.com/" +:+ key),
       {| world := w;
          events := events s ++ [S3UploadFileobj sig_stream bucket key];
          existing_repos := existing_repos s |}).
Proof.
  intros W svc self bucket generic_bucket prefix artifact_type sig_name
    sig_stream s w key Hput.
  unfold AWSRemote.upload_signature, AWSRemote.channel_upload. cbn.
  unfold S3Connector.upload, S3Connector._obj_url, bind, call. cbn.
  fold key. change ("" +:+ key) with key. now rewrite Hput.
Qed.

Lemma signatures_are_stored_by_type_and_name_witness :
  fst (AWSRemote.upload_signature Fixtures.quiet
         (AWSRemote.setup_generic
            (AWSRemote.setup_signatures Fixtures.aws "signatures")
            "bucket" (Some "generic/"))
         "docker" "a.sig" [] (Fixtures.start ∅))
  = Returned "https://signatures.s3.amazonaws.com/docker/a.sig".
Proof.
  now rewrite (signatures_are_stored_by_type_and_name nat Fixtures.quiet
                 Fixtures.aws "signatures" "bucket" (Some "generic/")
                 "docker" "a.sig" [] (Fixtures.start ∅) 1 eq_refl).
Defined.



Lemma setup_keeps_docker (calls : list ArtifactoryRemote.setup_call) :
  forall self,
    ArtifactoryRemote.docker (fold_left ArtifactoryRemote.setup calls self)
    = ArtifactoryRemote.docker self.
Proof.
  induction calls as [| c calls IH]; intros self; [reflexivity |].
  simpl. rewrite IH. now destruct c.
Qed.

(** X21.  An [ArtifactoryRemote] never uploads a docker image: whatever
    setup calls it has received, [upload_docker] raises
    [NoValidRemoteError] for the channel [docker] and calls nothing. *)
Theorem artifactory_remote_has_no_docker_channel :
  forall (St : Type) (repr username password : string)
         (calls : list ArtifactoryRemote.setup_call)
         (local_name : string) (upload_name upload_tag : option string) (s : St),
    ArtifactoryRemote.upload_docker
      (fold_left ArtifactoryRemote.setup calls
         (ArtifactoryRemote.__init__ repr username password))
      local_name upload_name upload_tag s
    = (Raised (Exn api.NoValidRemoteError
                 ("No " +:+ repr +:+ " connector configured for docker") None),
       s).
Proof.
  intros St repr username password calls local_name upload_name upload_tag s.
  unfold ArtifactoryRemote.upload_docker. now rewrite setup_keeps_docker.
Qed.

(** X22.  A signature upload through [ArtifactoryRemote] is one PUT of
    [artifact_type/sig_name] under the URL given to [setup_signatures],
    with the user and password of the remote; it carries no matrix
    parameter and is not preceded by a probe, also when the generic
    channel has a staging path. *)
Theorem artifactory_signature_upload_is_one_put :
  forall (W : Type) (svc : services W) (self : ArtifactoryRemote.t)
         (url generic_url temp_path artifact_type sig_name : string)
         (sig_stream : stream) (s : state W),
    events (snd (ArtifactoryRemote.upload_signature svc
                   (ArtifactoryRemote.setup_generic
                      (ArtifactoryRemote.setup_signatures self url)
                      generic_url temp_path)
                   artifact_type sig_name sig_stream s))
    = (events s
         ++ [HttpPut (os_path_join url (artifact_type +:+ "/" +:+ sig_name))
               sig_stream (ArtifactoryRemote.username self)
               (ArtifactoryRemote.password self)])%list.
Proof.
  intros W svc self url generic_url temp_path artifact_type sig_name
    sig_stream s.
  unfold ArtifactoryRemote.upload_signature. cbn.
  unfold HTTPBasicAuthConnector.upload, bind, call. cbn.
  destruct (requests_put _ _ _ _ _ _) as [[resp | e] w]; cbn; [| reflexivity].
  now destruct (negb _).
Qed.

(** ** Products *)

Section ProductsFacts.
Context {Item : Type} (fs : Products.filesystem)
  (Image : Products.yaml -> outcome Item).

Lemma keeps_loaded_refl (self : Products.t Item) : keeps_loaded self self.
Proof. split; reflexivity. Qed.

Lemma keeps_loaded_trans (s1 s2 s3 : Products.t Item) :
  keeps_loaded s1 s2 -> keeps_loaded s2 s3 -> keeps_loaded s1 s3.
Proof. intros [Hi Hd] [Hi' Hd']. split; etransitivity; eassumption. Qed.

Lemma append_images_spec (image_defs : list Products.yaml) :
  forall self : Products.t Item,
    exists new,
      Products.items (snd (Products.append_images Image image_defs self))
      = (Products.items self ++ new)%list
      /\ Products.data (snd (Products.append_images Image image_defs self))
         = Products.data self
      /\ Forall2 (fun image_def item => Image image_def = Returned item)
           (take (length new) image_defs) new
      /\ (fst (Products.append_images Image image_defs self) = Returned tt ->
          length new = length image_defs).
Proof.
  induction image_defs as [| d defs IH]; intros self.
  - exists []. simpl. rewrite app_nil_r. repeat split; constructor.
  - simpl. unfold bind, of_outcome.
    destruct (Image d) as [item | e] eqn:Himage; simpl.
    + destruct (IH {| Products.items := Products.items self ++ [item];
                      Products.data := Products.data self |})
        as (new & Hitems & Hdata & Hall & Hlen).
      exists (item :: new). simpl in *.
      rewrite Hitems, <- app_assoc. repeat split; try assumption.
      * now constructor.
      * intros Hret. now rewrite Hlen.
    + exists []. simpl. rewrite app_nil_r. repeat split; [constructor |].
      discriminate.
Qed.

Lemma load_file_keeps_loaded product_file :
  respects keeps_loaded (Products.load_file fs Image product_file).
Proof.
  intros self. unfold Products.load_file.
  destruct (negb _); [apply keeps_loaded_refl |].
  unfold bind, of_outcome, Products.update_data.
  destruct (Products.read_yaml fs product_file) as [product_def | e];
    [| apply keeps_loaded_refl].
  simpl.
  assert (Hupd : keeps_loaded self
                   {| Products.items := Products.items self;
                      Products.data := product_def ∪ Products.data self |}).
  { split; simpl; [reflexivity |]. rewrite dom_union. apply union_subseteq_r. }
  destruct (product_def !! "images") as [images |]; [| exact Hupd].
  destruct (Products.iterate images) as [image_defs | e]; [| exact Hupd].
  simpl. eapply keeps_loaded_trans; [exact Hupd |].
  destruct (append_images_spec image_defs
              {| Products.items := Products.items self;
                 Products.data := product_def ∪ Products.data self |})
    as (new & Hitems & Hdata & _).
  split.
  - rewrite Hitems. now apply prefix_app_r.
  - now rewrite Hdata.
Qed.

Lemma load_keeps_loaded products_to_parse :
  respects keeps_loaded (Products.load fs Image products_to_parse).
Proof.
  induction products_to_parse as [| f rest IH]; intros self.
  - apply keeps_loaded_refl.
  - simpl. apply (respects_bind keeps_loaded keeps_loaded_trans).
    + apply load_file_keeps_loaded.
    + intros _. exact IH.
Qed.

Lemma load_app files files' self :
  Products.load fs Image (files ++ files') self
  = (Products.load fs Image files ;;; Products.load fs Image files') self.
Proof.
  revert self. induction files as [| f files IH]; intros self; [reflexivity |].
  simpl. unfold bind in *.
  destruct (Products.load_file fs Image f self) as [[[] | e] self1];
    [apply IH | reflexivity].
Qed.

Lemma load_file_missing product_file self :
  Products.path_exists fs product_file = false ->
  Products.load_file fs Image product_file self = (Returned tt, self).
Proof. intros Hmissing. unfold Products.load_file. now rewrite Hmissing. Qed.

Lemma load_file_data product_file product_def self self' :
  Products.path_exists fs product_file = true ->
  Products.read_yaml fs product_file = Returned product_def ->
  snd (Products.load_file fs Image product_file self) = self' ->
  Products.data self' = product_def ∪ Products.data self.
Proof.
  intros Hexists Hread <-. unfold Products.load_file.
  rewrite Hexists. simpl. unfold bind, of_outcome, Products.update_data.
  rewrite Hread. simpl.
  destruct (product_def !! "images") as [images |]; [| reflexivity].
  destruct (Products.iterate images) as [image_defs | e]; [| reflexivity].
  simpl. now destruct (append_images_spec image_defs
                         {| Products.items := Products.items self;
                            Products.data := product_def ∪ Products.data self |})
    as (new & _ & -> & _).
Qed.

End ProductsFacts.

(** X23.  [load] skips the files that do not exist: loading a list of
    files is loading those of them that exist, in the same order. *)
Theorem load_skips_missing_files :
  forall (Item : Type) (fs : Products.filesystem)
         (Image : Products.yaml -> outcome Item)
         (products_to_parse : list string) (self : Products.t Item),
    Products.load fs Image products_to_parse self
    = Products.load fs Image
        (List.filter (Products.path_exists fs) products_to_parse) self.
Proof.
  intros Item fs Image products_to_parse.
  induction products_to_parse as [| f rest IH]; intros self; [reflexivity |].
  simpl List.filter. destruct (Products.path_exists fs f) eqn:Hexists.
  - simpl. unfold bind.
    destruct (Products.load_file fs Image f self) as [[[] | e] self1];
      [apply IH | reflexivity].
  - simpl. unfold bind. rewrite load_file_missing by exact Hexists. apply IH.
Qed.

(** X24.  Whatever happens while loading, also when a file cannot be read
    or an image definition is refused half way, the items already there
    stay where they are, at the head of the list, and no key of the data
    disappears. *)
Theorem load_keeps_what_was_loaded :
  forall (Item : Type) (fs : Products.filesystem)
         (Image : Products.yaml -> outcome Item)
         (products_to_parse : list string) (self : Products.t Item),
    let self' := snd (Products.load fs Image products_to_parse self) in
    Products.items self `prefix_of` Products.items self'
    /\ dom (Products.data self) ⊆ dom (Products.data self').
Proof.
  intros Item fs Image products_to_parse self. apply load_keeps_loaded.
Qed.

(** X25.  The data are merged key by key and the last file wins: after a
    load that returns, a top-level key of the last file read has the value
    given there, whatever earlier files said, the whole earlier value
    being replaced. *)
Theorem last_file_wins :
  forall (Item : Type) (fs : Products.filesystem)
         (Image : Products.yaml -> outcome Item)
         (earlier : list string) (last_file : string)
         (product_def : gmap string Products.yaml) (key : string)
         (value : Products.yaml) (self self' : Products.t Item),
    Products.load fs Image (earlier ++ [last_file]) self = (Returned tt, self') ->
    Products.path_exists fs last_file = true ->
    Products.read_yaml fs last_file = Returned product_def ->
    product_def !! key = Some value ->
    Products.data self' !! key = Some value.
Proof.
  intros Item fs Image earlier last_file product_def key value self self'
    Hload Hexists Hread Hkey.
  rewrite load_app in Hload. unfold bind in Hload.
  destruct (Products.load fs Image earlier self) as [[[] | e] self1];
    [| discriminate].
  simpl in Hload. unfold bind in Hload.
  destruct (Products.load_file fs Image last_file self1) as [[[] | e] self2] eqn:Hfile;
    [| discriminate].
  injection Hload as <-.
  rewrite (load_file_data fs Image last_file product_def self1 self2 Hexists Hread)
    by now rewrite Hfile.
  now apply lookup_union_Some_l.
Qed.

Lemma last_file_wins_witness :
  Products.data
    (snd (Products.load Fixtures.products_files Fixtures.named_image
            ["base.yml"; "missing.yml"; "extra.yml"]
            {| Products.items := []; Products.data := ∅ |}))
  !! "owner"
  = Some (Products.YStr "extra").
Proof.
  assert (Hload :
            Products.load Fixtures.products_files Fixtures.named_image
              (["base.yml"; "missing.yml"] ++ ["extra.yml"])
              {| Products.items := []; Products.data := ∅ |}
            = (Returned tt,
               snd (Products.load Fixtures.products_files Fixtures.named_image
                      ["base.yml"; "missing.yml"; "extra.yml"]
                      {| Products.items := []; Products.data := ∅ |})))
    by (vm_compute; reflexivity).
  apply (last_file_wins string Fixtures.products_files Fixtures.named_image
           ["base.yml"; "missing.yml"] "extra.yml"
           {[ "images" := Products.YSeq [Products.YStr "c"];
              "owner" := Products.YStr "extra" ]}
           "owner" (Products.YStr "extra") _ _ Hload);
    [reflexivity | reflexivity | vm_compute; reflexivity].
Defined.

(** X26.  A file whose [images] entry is a sequence adds one item per
    image definition, in the order of the file and after the items
    already loaded, each built by [Image] from its definition. *)
Theorem images_are_appended_in_order :
  forall (Item : Type) (fs : Products.filesystem)
         (Image : Products.yaml -> outcome Item)
         (product_file : string) (product_def : gmap string Products.yaml)
         (image_defs : list Products.yaml) (self self' : Products.t Item),
    Products.path_exists fs product_file = true ->
    Products.read_yaml fs product_file = Returned product_def ->
    product_def !! "images" = Some (Products.YSeq image_defs) ->
    Products.load_file fs Image product_file self = (Returned tt, self') ->
    exists new,
      Products.items self' = (Products.items self ++ new)%list
      /\ Forall2 (fun image_def item => Image image_def = Returned item)
           image_defs new.
Proof.
  intros Item fs Image product_file product_def image_defs self self'
    Hexists Hread Himages Hload.
  unfold Products.load_file in Hload. rewrite Hexists in Hload. simpl in Hload.
  unfold bind, of_outcome, Products.update_data in Hload.
  rewrite Hread in Hload. simpl in Hload. rewrite Himages in Hload.
  simpl in Hload.
  destruct (append_images_spec Image image_defs
              {| Products.items := Products.items self;
                 Products.data := product_def ∪ Products.data self |})
    as (new & Hitems & _ & Hall & Hlen).
  rewrite Hload in Hitems, Hlen. simpl in Hitems, Hlen.
  exists new. split; [exact Hitems |].
  rewrite Hlen in Hall by reflexivity. now rewrite firstn_all in Hall.
Qed.

Lemma images_are_appended_in_order_witness :
  Products.items
    (snd (Products.load_file Fixtures.products_files Fixtures.named_image
            "base.yml" {| Products.items := ["z"]; Products.data := ∅ |}))
  = ["z"; "a"; "b"].
Proof.
  assert (Hload :
            Products.load_file Fixtures.products_files Fixtures.named_image
              "base.yml" {| Products.items := ["z"]; Products.data := ∅ |}
            = (Returned tt,
               snd (Products.load_file Fixtures.products_files
                      Fixtures.named_image "base.yml"
                      {| Products.items := ["z"]; Products.data := ∅ |})))
    by (vm_compute; reflexivity).
  destruct (images_are_appended_in_order string Fixtures.products_files
              Fixtures.named_image "base.yml"
              {[ "images" := Products.YSeq [Products.YStr "a"; Products.YStr "b"];
                 "owner" := Products.YStr "base" ]}
              [Products.YStr "a"; Products.YStr "b"] _ _
              eq_refl eq_refl ltac:(vm_compute; reflexivity) Hload)
    as (new & Hitems & _).
  vm_compute. reflexivity.
Defined.
